(** * dgl_chem: SMILES filtering, dataset construction and splitting, the
      training loop, the prediction metrics and the heat-capacity layer,
      embedded from the Python sources.

    Python lists are Rocq lists, indices are [nat], Python [int]s are [Z],
    exceptions are an explicit [result] type.  Array arithmetic is taken
    over exact numbers: [Q] where the code only adds, divides and compares,
    [R] where it needs square roots or hyperbolic functions.  Calls into
    RDKit, dgl-lifesci and PyTorch are section variables: the theorems hold
    for whatever those libraries compute.

    Part I holds the embedding, Part II the theorems. *)

From Stdlib Require Import List String Ascii Bool Arith ZArith QArith Lia.
From Stdlib Require Import Reals Lra.
From Stdlib Require Lqa.
Import ListNotations.

Set Implicit Arguments.

Open Scope string_scope.
Open Scope list_scope.

(** * Part I: the embedding *)

(** ** Exceptions *)

Inductive exn : Type :=
| AssertionError (msg : string)
| NameError (name : string)
| KeyError (key : string)
| ValueError (msg : string)
| IndexError
| ArgumentError.

Inductive result (A : Type) : Type :=
| Ok (a : A)
| Raise (e : exn).

Arguments Ok {A} a.
Arguments Raise {A} e.

Definition bind {A B : Type} (r : result A) (k : A -> result B) : result B :=
  match r with
  | Ok a => k a
  | Raise e => Raise e
  end.

Notation "x <- r ;; k" := (bind r (fun x => k))
  (at level 61, r at next level, right associativity).

Definition is_ok {A : Type} (r : result A) : bool :=
  match r with Ok _ => true | Raise _ => false end.

(** [if o is None: o = d] *)
Definition or_default {A : Type} (o : option A) (d : A) : A :=
  match o with
  | Some a => a
  | None => d
  end.

(** [l[i]] on a list, [IndexError] out of range. *)
Definition getitem {A : Type} (l : list A) (i : nat) : result A :=
  match nth_error l i with
  | Some a => Ok a
  | None => Raise IndexError
  end.

(** ** Data frames, as far as [filter_smiles] uses them *)

(** [x in l] on a list of strings. *)
Definition str_in (x : string) (l : list string) : bool :=
  existsb (String.eqb x) l.

(** [l.index(x)]: position of the first occurrence, [ValueError] when absent. *)
Fixpoint list_index (x : string) (l : list string) : result nat :=
  match l with
  | [] => Raise (ValueError "x not in list")
  | y :: l' => if String.eqb y x then Ok 0%nat
               else i <- list_index x l' ;; Ok (S i)
  end.

Fixpoint enumerate_from {A : Type} (n : nat) (l : list A) : list (nat * A) :=
  match l with
  | [] => []
  | a :: l' => (n, a) :: enumerate_from (S n) l'
  end.

(** Rows carry their label; a fresh frame has the labels 0, 1, ... *)
Definition DataFrame (T : Type) : Type := list (nat * (string * T)).

(** [pd.DataFrame({'smiles': smiles, 'target': target})] *)
Definition mk_frame {T : Type} (smiles : list string) (target : list T)
  : result (DataFrame T) :=
  if Nat.eqb (List.length smiles) (List.length target)
  then Ok (enumerate_from 0 (combine smiles target))
  else Raise (ValueError "All arrays must be of the same length").

Definition col_smiles {T : Type} (df : DataFrame T) : list string :=
  map (fun r => fst (snd r)) df.

Definition col_target {T : Type} (df : DataFrame T) : list T :=
  map (fun r => snd (snd r)) df.

Definition has_label {T : Type} (df : DataFrame T) (i : nat) : bool :=
  existsb (fun r => Nat.eqb (fst r) i) df.

(** [df.drop(labels)]: every label has to exist; the rows carrying one of
    the labels are removed.  [reset_index] renumbers the rows and changes
    neither column. *)
Definition df_drop {T : Type} (labels : list nat) (df : DataFrame T)
  : result (DataFrame T) :=
  if forallb (has_label df) labels
  then Ok (filter (fun r => negb (existsb (Nat.eqb (fst r)) labels)) df)
  else Raise (KeyError "not found in axis").

(** ** src/dglchem/utils/data.py : filter_smiles *)

Definition default_allowed_atoms : list string :=
  ["B"; "C"; "N"; "O"; "F"; "Si"; "P"; "S"; "Cl"; "As"; "Se"; "Br"; "Te"; "I"; "At"].

Section FilterSmiles.

(** RDKit: [Chem.MolFromSmiles], [mol.GetNumHeavyAtoms()] and the symbols
    [a.GetSymbol()] of [mol.GetAtoms()], in order. *)
Variable Mol : Type.
Variable MolFromSmiles : string -> option Mol.
Variable GetNumHeavyAtoms : Mol -> nat.
Variable GetSymbols : Mol -> list string.

Variable T : Type.

(** One round of [for element in smiles]: the indices it appends to
    [indices_to_drop].  The print statements, under [print_out], evaluate
    the same [index] call and change nothing. *)
Definition filter_step (allowed_atoms : list string) (df : DataFrame T)
           (element : string) : result (list nat) :=
  match MolFromSmiles element with
  | None =>
      i <- list_index element (col_smiles df) ;; Ok [i]
  | Some mol =>
      if (GetNumHeavyAtoms mol <? 2)%nat then
        i <- list_index element (col_smiles df) ;; Ok [i]
      else
        fold_left
          (fun acc sym =>
             l <- acc ;;
             if negb (str_in sym allowed_atoms)
             then i <- list_index element (col_smiles df) ;; Ok (l ++ [i])
             else Ok l)
          (GetSymbols mol) (Ok [])
  end.

Fixpoint filter_loop (allowed_atoms : list string) (df : DataFrame T)
         (todo : list string) (indices_to_drop : list nat)
  : result (list nat) :=
  match todo with
  | [] => Ok indices_to_drop
  | element :: todo' =>
      new <- filter_step allowed_atoms df element ;;
      filter_loop allowed_atoms df todo' (indices_to_drop ++ new)
  end.

Definition filter_smiles (smiles : list string) (target : list T)
           (allowed_atoms : option (list string)) (print_out : bool)
  : result (list string * list T) :=
  let allowed_atoms := or_default allowed_atoms default_allowed_atoms in
  df <- mk_frame smiles target ;;
  indices_to_drop <- filter_loop allowed_atoms df smiles [] ;;
  df' <- df_drop indices_to_drop df ;;
  Ok (col_smiles df', col_target df').

(** The three conditions of the filter on one string: it parses, has two
    heavy atoms or more, and every atom symbol is allowed. *)
Definition keeps (allowed_atoms : list string) (s : string) : bool :=
  match MolFromSmiles s with
  | None => false
  | Some mol =>
      (2 <=? GetNumHeavyAtoms mol)%nat
      && forallb (fun sym => str_in sym allowed_atoms) (GetSymbols mol)
  end.

(** Number of atoms of [syms] outside the allow-list. *)
Definition count_bad (allowed : list string) (syms : list string) : nat :=
  List.length (filter (fun sym => negb (str_in sym allowed)) syms).

(** Row [i] holds the first occurrence of [s] in the column. *)
Definition first_at (smiles : list string) (i : nat) (s : string) : bool :=
  match list_index s smiles with
  | Ok j => Nat.eqb j i
  | Raise _ => false
  end.

(** The rows the loop leaves in the frame: those whose string passes, and
    those that repeat an earlier string. *)
Definition survives (allowed_atoms : list string) (smiles : list string)
           (r : nat * (string * T)) : bool :=
  keeps allowed_atoms (fst (snd r))
  || negb (first_at smiles (fst r) (fst (snd r))).

End FilterSmiles.

(** ** src/dgl_chem/utils/data_load.py : the earlier filter_smiles, on the
       strings alone; the frame has the one column. *)

Module DataLoad.

Section FilterSmiles.

Variable Mol : Type.
Variable MolFromSmiles : string -> option Mol.
Variable GetNumHeavyAtoms : Mol -> nat.
Variable GetSymbols : Mol -> list string.

Definition filter_smiles (smiles : list string) (allowed_set : option (list string))
  : result (list string) :=
  let allowed_set := or_default allowed_set default_allowed_atoms in
  let df : DataFrame unit :=
    enumerate_from 0 (map (fun s => (s, tt)) smiles) in
  indices_to_drop <-
    filter_loop MolFromSmiles GetNumHeavyAtoms GetSymbols allowed_set df smiles [] ;;
  df' <- df_drop indices_to_drop df ;;
  Ok (col_smiles df').

End FilterSmiles.

End DataLoad.

(** What RDKit answers on four strings, for running the filter: methane,
    ethane, methylsodium (an atom outside the allow-list); every other
    string, the unbalanced parenthesis among them, stands for one that
    does not parse. *)
Record ToyMol : Type := { heavy : nat; symbols : list string }.

Definition toy_parse (s : string) : option ToyMol :=
  if String.eqb s "C" then Some {| heavy := 1; symbols := ["C"] |}
  else if String.eqb s "CC" then Some {| heavy := 2; symbols := ["C"; "C"] |}
  else if String.eqb s "C[Na]" then Some {| heavy := 2; symbols := ["C"; "Na"] |}
  else None.

Definition toy_filter {T : Type} (smiles : list string) (target : list T) :=
  filter_smiles toy_parse heavy symbols smiles target None false.

(** ** numpy reductions *)

Definition np_sum (a : list R) : R := fold_right Rplus 0%R a.

Definition np_mean (a : list R) : R := (np_sum a / INR (List.length a))%R.

(** [np.std], with the default [ddof = 0]: the root of the mean squared
    deviation from the mean. *)
Definition np_std (a : list R) : R :=
  sqrt (np_mean (map (fun v => ((v - np_mean a) * (v - np_mean a))%R) a)).

Definition np_sumQ (a : list Q) : Q := fold_right Qplus 0%Q a.

(** Truth value of a number: nonzero. *)
Definition truthy (q : Q) : bool := negb (Qeq_bool q 0).

(** [a[a == k]] on a label array. *)
Definition mask_eq (k : Z) (a : list Z) : list Z := filter (Z.eqb k) a.

(** ** src/dglchem/utils/data.py : construct_dataset, split_data, DataSet,
       MakeGraphDataSet *)

Definition default_atom_feature_list : list string :=
  ["atom_type_one_hot"; "atom_degree_one_hot"; "atom_formal_charge";
   "atom_num_radical_electrons"; "atom_hybridization_one_hot";
   "atom_is_aromatic"; "atom_total_num_H_one_hot"; "atom_is_chiral_center";
   "atom_chirality_type_one_hot"].

Definition default_bond_feature_list : list string :=
  ["bond_type_one_hot"; "bond_is_conjugated"; "bond_is_in_ring";
   "bond_stereo_one_hot"].

Definition custom_split_msg : string :=
  "The custom split has to match the length of the filtered dataset.Consider saving the filtered output with .get_smiles()".

Definition split_frac_msg : string := "Split fractions should add to 1.".

Definition path_or_smiles_msg : string := "path or (smiles and target) must given.".

Section DataSets.

Variable Mol : Type.
Variable MolFromSmiles : string -> option Mol.
Variable GetNumHeavyAtoms : Mol -> nat.
Variable GetSymbols : Mol -> list string.

(** Features, from RDKit, torch_geometric and the featurizer module:
    [dense_to_sparse(torch.tensor(rdmolops.GetAdjacencyMatrix(mol)))[0]],
    [AtomFeaturizer(allowed_atoms, atom_feature_list)(mol)] and
    [BondFeaturizer(bond_feature_list)(mol)]. *)
Variables NodeFeat EdgeIndex EdgeFeat GlobalFeat : Type.
Variable adjacency_edges : Mol -> result EdgeIndex.
Variable AtomFeaturizer : option (list string) -> list string -> Mol -> result NodeFeat.
Variable BondFeaturizer : list string -> Mol -> result EdgeFeat.

(** [torch_geometric.data.Data(x, edge_index, edge_attr, y)] *)
Record Data : Type := mkData {
  x : NodeFeat;
  edge_index : EdgeIndex;
  edge_attr : EdgeFeat;
  y : R
}.

(** [pickle.load] of the file at a path. *)
Variable pickle_load : string -> result (list Data).

(** dgl-lifesci: what [Splitter.train_val_test_split(data, a, b, c)] gives,
    the (train, validation, test) subsets in that order. *)
Variable Subset : Type.
Definition Splitter : Type :=
  list Data -> Q -> Q -> Q -> result (Subset * Subset * Subset).
Variable ConsecutiveSplitter : Splitter.
Variable RandomSplitter : Splitter.
Variable MolecularWeightSplitter : Splitter.
Variable ScaffoldSplitter : Splitter.
Variable SingleTaskStratifiedSplitter : Splitter.

(** The body of [for (smile, i) in zip(smiles, range(len(smiles)))].
    [GetAdjacencyMatrix(None)] is refused by RDKit. *)
Definition construct_one (atom_featurizer : Mol -> result NodeFeat)
           (bond_featurizer : Mol -> result EdgeFeat)
           (target : list R) (smile : string) (i : nat) : result Data :=
  match MolFromSmiles smile with
  | None => Raise ArgumentError
  | Some mol =>
      edge_index <- adjacency_edges mol ;;
      x <- atom_featurizer mol ;;
      edge_attr <- bond_featurizer mol ;;
      yi <- getitem target i ;;
      Ok (mkData x edge_index edge_attr yi)
  end.

Fixpoint construct_loop (atom_featurizer : Mol -> result NodeFeat)
         (bond_featurizer : Mol -> result EdgeFeat)
         (target : list R) (todo : list (string * nat)) (data : list Data)
  : result (list Data) :=
  match todo with
  | [] => Ok data
  | (smile, i) :: todo' =>
      d <- construct_one atom_featurizer bond_featurizer target smile i ;;
      construct_loop atom_featurizer bond_featurizer target todo' (data ++ [d])
  end.

Definition construct_dataset (smiles : list string) (target : list R)
           (allowed_atoms : option (list string))
           (atom_feature_list bond_feature_list : option (list string))
  : result (list Data) :=
  let atom_feature_list := or_default atom_feature_list default_atom_feature_list in
  let bond_feature_list := or_default bond_feature_list default_bond_feature_list in
  let atom_featurizer := AtomFeaturizer allowed_atoms atom_feature_list in
  let bond_featurizer := BondFeaturizer bond_feature_list in
  construct_loop atom_featurizer bond_featurizer target
                 (combine smiles (seq 0 (List.length smiles))) [].

(** A component of a split: a subset of the graphs, or a slice of the
    label array. *)
Inductive SplitPart : Type :=
| PartSubset (s : Subset)
| PartLabels (a : list Z).

Definition split_func : list (string * Splitter) :=
  [("consecutive", ConsecutiveSplitter);
   ("random", RandomSplitter);
   ("molecular_weight", MolecularWeightSplitter);
   ("scaffold", ScaffoldSplitter);
   ("stratified", SingleTaskStratifiedSplitter)].

Fixpoint dict_get {V : Type} (d : list (string * V)) (k : string) : result V :=
  match d with
  | [] => Raise (KeyError k)
  | (k', v) :: d' => if String.eqb k' k then Ok v else dict_get d' k
  end.

(** What the name [self] is bound to where [split_data] runs.  [split_data]
    is a function of the module, not a method: [self] is none of its
    parameters or locals, and data.py binds no global of that name. *)
Definition split_data_self : option (list Data) := None.

Definition split_data (data : list Data) (split_type : string)
           (split_frac : list Q) (custom_split : option (list Z))
  : result (SplitPart * SplitPart * SplitPart) :=
  if String.eqb split_type "custom" then
    match custom_split with
    | None => Raise (AssertionError custom_split_msg)
    | Some a =>
        self_data <- match split_data_self with
                     | Some d => Ok d
                     | None => Raise (NameError "self")
                     end ;;
        if Nat.eqb (List.length a) (List.length self_data)
        then Ok (PartLabels (mask_eq 0 a), PartLabels (mask_eq 1 a),
                 PartLabels (mask_eq 2 a))
        else Raise (AssertionError custom_split_msg)
    end
  else
    splitter <- dict_get split_func split_type ;;
    f0 <- getitem split_frac 0 ;;
    f1 <- getitem split_frac 1 ;;
    f2 <- getitem split_frac 2 ;;
    r <- splitter data f0 f1 f2 ;;
    let '(a, b, c) := r in
    Ok (PartSubset a, PartSubset b, PartSubset c).

(** Attributes of a [DataSet]; [None] is an attribute that was not set. *)
Record DataSetObj : Type := mkDataSet {
  root : string;
  ds_smiles : option (list string);
  ds_target : option (list R);
  ds_data : list Data;
  ds_global_features : option GlobalFeat
}.

(** [(target_ - np.mean(target_)) / np.std(target_)] *)
Definition standardize (target_ : list R) : list R :=
  map (fun t => ((t - np_mean target_) / np_std target_)%R) target_.

Definition DataSet_init (file_path : option string)
           (smiles : option (list string)) (target : option (list R))
           (global_features : GlobalFeat)
           (allowed_atoms atom_feature_list bond_feature_list : option (list string))
           (log : bool) (root : option string) : result DataSetObj :=
  let root := or_default root "./data" in
  match file_path, smiles, target with
  | Some p, _, _ =>
      data <- pickle_load p ;;
      Ok (mkDataSet root None None data None)
  | None, Some smiles, Some target =>
      r <- filter_smiles MolFromSmiles GetNumHeavyAtoms GetSymbols
                         smiles target allowed_atoms log ;;
      let '(self_smiles, self_target) := r in
      let self_target := standardize self_target in
      data <- construct_dataset self_smiles self_target allowed_atoms
                                atom_feature_list bond_feature_list ;;
      Ok (mkDataSet root (Some self_smiles) (Some self_target) data
                    (Some global_features))
  | None, _, _ => Raise (AssertionError path_or_smiles_msg)
  end.

Record MakeGraphDataSetObj : Type := mkMakeGraphDataSet {
  base : DataSetObj;
  custom_split : option (list Z);
  split_type : string;
  split_frac : list Q;
  train : option SplitPart;
  test : option SplitPart;
  val : option SplitPart
}.

Definition MakeGraphDataSet_init (path : option string)
           (smiles : option (list string)) (target : option (list R))
           (global_features : GlobalFeat)
           (allowed_atoms atom_feature_list bond_feature_list : option (list string))
           (split : bool) (split_type : option string)
           (split_frac : option (list Q)) (custom_split : option (list Z))
           (log : bool) : result MakeGraphDataSetObj :=
  self <- DataSet_init path smiles target global_features allowed_atoms
                       atom_feature_list bond_feature_list log None ;;
  let split_type := or_default split_type "random" in
  let split_frac := or_default split_frac [8 # 10; 1 # 10; 1 # 10]%Q in
  if truthy (np_sumQ split_frac) then
    if split then
      r <- split_data (ds_data self) split_type split_frac custom_split ;;
      let '(a, b, c) := r in
      Ok (mkMakeGraphDataSet self custom_split split_type split_frac
                             (Some a) (Some b) (Some c))
    else
      Ok (mkMakeGraphDataSet self custom_split split_type split_frac
                             None None None)
  else Raise (AssertionError split_frac_msg).

End DataSets.

(** ** src/grape/utils/model_train_test.py : train_model *)

Section TrainModel.

(** The network together with its optimizer, a mini-batch, and a loss
    value (a float: [ltb] is its [<], [inf] is [float('inf')]). *)
Variables Model Batch Loss : Type.

(** One training step on a batch: [zero_grad], forward pass, loss,
    [backward], [optimizer.step()]; it gives the updated model and the
    loss.  One validation step: forward pass and loss. *)
Variable train_batch : Model -> Batch -> Model * Loss.
Variable val_batch : Model -> Batch -> Model * Loss.

(** The batches a loader yields when epoch [i] iterates over it. *)
Variable train_data_loader : nat -> list Batch.
Variable val_data_loader : nat -> list Batch.

(** [np.mean] of the per-batch losses. *)
Variable loss_mean : list Loss -> Loss.
Variable ltb : Loss -> Loss -> bool.
Variable inf : Loss.

Record TrainState : Type := mkTrainState {
  model : Model;
  train_loss : list Loss;
  val_loss : list Loss;
  loss_cut : Loss;
  counter : nat
}.

(** [for idx, batch in enumerate(loader): ... temp[idx] = loss]: the model
    after the last batch and the filled array [temp]. *)
Fixpoint run_batches (step : Model -> Batch -> Model * Loss) (m : Model)
         (batches : list Batch) : Model * list Loss :=
  match batches with
  | [] => (m, [])
  | b :: batches' =>
      let (m1, l) := step m b in
      let (m2, temp) := run_batches step m1 batches' in
      (m2, l :: temp)
  end.

(** Body of [for i in range(epochs)], up to the early-stopping test. *)
Definition epoch_body (i : nat) (st : TrainState) : TrainState :=
  let (m1, temp) := run_batches train_batch (model st) (train_data_loader i) in
  let loss_train := loss_mean temp in
  let train_loss := train_loss st ++ [loss_train] in
  let (m2, temp) := run_batches val_batch m1 (val_data_loader i) in
  let loss_val := loss_mean temp in
  let val_loss := val_loss st ++ [loss_val] in
  if ltb loss_val (loss_cut st)
  then mkTrainState m2 train_loss val_loss loss_val 0
  else mkTrainState m2 train_loss val_loss (loss_cut st) (S (counter st)).

(** [counter == patience and early_stopping] *)
Definition hit_early_stop (early_stopping : bool) (patience : Z)
           (st : TrainState) : bool :=
  (Z.of_nat (counter st) =? patience)%Z && early_stopping.

Fixpoint epochs_loop (early_stopping : bool) (patience : Z)
         (todo : list nat) (st : TrainState) : TrainState :=
  match todo with
  | [] => st
  | i :: todo' =>
      let st' := epoch_body i st in
      if hit_early_stop early_stopping patience st' then st'
      else epochs_loop early_stopping patience todo' st'
  end.

Definition train_init (m : Model) : TrainState :=
  mkTrainState m [] [] inf 0.

(** The state the loop leaves behind. *)
Definition train_model_state (m : Model) (epochs : Z) (early_stopping : bool)
           (patience : Z) : TrainState :=
  epochs_loop early_stopping patience (seq 0 (Z.to_nat epochs)) (train_init m).

Definition train_model (m : Model) (epochs : Z) (early_stopping : bool)
           (patience : Z) : list Loss * list Loss :=
  let st := train_model_state m epochs early_stopping patience in
  (train_loss st, val_loss st).

(** Reference points for the statements: the state after [k] full epochs
    run one after the other with no early-stopping test, and the quantities
    of epoch [j] (counted from 0). *)
Fixpoint state_after (m : Model) (k : nat) : TrainState :=
  match k with
  | O => train_init m
  | S k' => epoch_body k' (state_after m k')
  end.

Definition epoch_train_mean (m : Model) (j : nat) : Loss :=
  loss_mean (snd (run_batches train_batch (model (state_after m j))
                              (train_data_loader j))).

Definition epoch_val_mean (m : Model) (j : nat) : Loss :=
  loss_mean
    (snd (run_batches val_batch
            (fst (run_batches train_batch (model (state_after m j))
                              (train_data_loader j)))
            (val_data_loader j))).

(** Epoch [j] improved: its validation loss is strictly below the best of
    the epochs before it. *)
Definition improved (m : Model) (j : nat) : bool :=
  ltb (epoch_val_mean m j) (loss_cut (state_after m j)).

End TrainModel.

(** Losses for running the loop: integers with an infinity on top. *)
Inductive ToyLoss : Type :=
| Fin (z : Z)
| PInf.

Definition toy_ltb (a b : ToyLoss) : bool :=
  match a, b with
  | Fin x, Fin y => (x <? y)%Z
  | Fin _, PInf => true
  | PInf, _ => false
  end.

Definition toy_mean (l : list ToyLoss) : ToyLoss :=
  match l with
  | [a] => a
  | _ => PInf
  end.

(** A "model" that is the number of training steps taken, with one batch
    per epoch carrying the validation loss to report. *)
Definition toy_train_batch (m : nat) (b : Z) : nat * ToyLoss := (S m, Fin b).
Definition toy_val_batch (m : nat) (b : Z) : nat * ToyLoss := (m, Fin b).
Definition toy_loader (losses : list Z) (i : nat) : list Z := [nth i losses 0%Z].

Definition toy_train (losses : list Z) (epochs : Z) (early_stopping : bool)
           (patience : Z) : list ToyLoss * list ToyLoss :=
  train_model toy_train_batch toy_val_batch (toy_loader losses)
              (toy_loader losses) toy_mean toy_ltb PInf 0%nat epochs
              early_stopping patience.

(** ** src/grape/utils/model_train_test.py : pred_metric *)

(** The [metrics] argument: one name or a list of names. *)
Inductive MetricsArg : Type :=
| MetricStr (s : string)
| MetricList (l : list string).

(** [d[k] = v] on a dict kept in insertion order. *)
Fixpoint dict_set {V : Type} (d : list (string * V)) (k : string) (v : V)
  : list (string * V) :=
  match d with
  | [] => [(k, v)]
  | (k', v') :: d' =>
      if String.eqb k' k then (k', v) :: d' else (k', v') :: dict_set d' k v
  end.

Fixpoint dict_lookup {V : Type} (d : list (string * V)) (k : string) : option V :=
  match d with
  | [] => None
  | (k', v) :: d' => if String.eqb k' k then Some v else dict_lookup d' k
  end.

(** Element-wise arithmetic on two arrays of one shape. *)
Definition arr_sub (a b : list Q) : list Q :=
  map (fun p => (fst p - snd p)%Q) (combine a b).

Definition arr_div (a b : list Q) : list Q :=
  map (fun p => (fst p / snd p)%Q) (combine a b).

Definition arr_sq (a : list Q) : list Q := map (fun v => (v * v)%Q) a.

Section PredMetric.

(** scikit-learn: [mean_squared_error], [mean_absolute_error], [r2_score],
    each called as [f(target, prediction)]. *)
Variable mean_squared_error : list Q -> list Q -> Q.
Variable mean_absolute_error : list Q -> list Q -> Q.
Variable r2_score : list Q -> list Q -> Q.

(** One round of [for metric_ in metrics: match metric_: ...]; a name that
    matches no case leaves [results] as it is. *)
Definition metric_case (prediction target : list Q)
           (results : list (string * Q)) (metric_ : string)
  : list (string * Q) :=
  if String.eqb metric_ "mse" then
    dict_set results "mse" (mean_squared_error target prediction)
  else if String.eqb metric_ "sse" then
    dict_set results "sse" (np_sumQ (arr_sq (arr_sub target prediction)))
  else if String.eqb metric_ "mae" then
    dict_set results "mae" (mean_absolute_error target prediction)
  else if String.eqb metric_ "r2" then
    dict_set results "r2" (r2_score target prediction)
  else if String.eqb metric_ "mre" then
    dict_set results "mre"
             (np_sumQ (arr_div (arr_sub target prediction) target) * 100)%Q
  else results.

Definition pred_metric (prediction target : list Q) (metrics : MetricsArg)
  : list (string * Q) :=
  let metrics :=
    match metrics with
    | MetricList l => l
    | MetricStr s => if String.eqb s "all" then ["mse"; "sse"; "mae"; "r2"; "mre"]
                     else [s]
    end in
  fold_left (metric_case prediction target) metrics [].

End PredMetric.

(** The Mean Relative Error as the docstring of [pred_metric] gives it:
    (1/N) * sum_i (y_i - f(x_i)) / y_i * 100. *)
Definition mre_documented (prediction target : list Q) : Q :=
  ((1 / inject_Z (Z.of_nat (List.length target)))
   * np_sumQ (map (fun p => ((snd p - fst p) / snd p * 100)%Q)
                  (combine prediction target)))%Q.

(** ** src/grape_chem/models/coupled_ensemble_module.py : CpLayer and
       GroupGAT_Ensemble, on one sample, over the reals *)

Module CpLayer.

Local Open Scope R_scope.

Definition epsilon : R := 1e-7.

(** [torch.clamp(x, min=lo, max=hi)] and its one-sided form. *)
Definition clamp (x lo hi : R) : R := Rmin (Rmax x lo) hi.
Definition clamp_max (x hi : R) : R := Rmin x hi.

(** [torch.sign] *)
Definition sign (x : R) : R :=
  if Rlt_dec 0 x then 1 else if Rlt_dec x 0 then -1 else 0.

(** [torch.where(torch.abs(x) <= 20, torch.sinh(x), ...)] *)
Definition safe_sinh (x : R) : R :=
  if Rle_dec (Rabs x) 20 then sinh x
  else sign x * (exp (clamp_max (Rabs x) 88) / 2).

Definition safe_cosh (x : R) : R :=
  if Rle_dec (Rabs x) 20 then cosh x
  else exp (clamp_max (Rabs x) 88) / 2.

(** The intermediate values of [forward], by the names the code gives them. *)
Definition T_shifted (T : R) : R := T + epsilon.
Definition D_over_T (D T : R) : R := clamp (D / T_shifted T) (-20) 20.
Definition F_over_T (F T : R) : R := clamp (F / T_shifted T) (-20) 20.
Definition sinh_term (D T : R) : R := safe_sinh (D_over_T D T) + epsilon.
Definition cosh_term (F T : R) : R := safe_cosh (F_over_T F T) + epsilon.

Definition forward (B C D E F T : R) : R :=
  B + C * ((D_over_T D T / sinh_term D T) ^ 2)
    + E * ((F_over_T F T / cosh_term F T) ^ 2).

(** The closed form as the specification words it: the hyperbolic
    functions, replaced by the exponential form whenever |x| > 20. *)
Definition sinh_spec (x : R) : R :=
  if Rlt_dec 20 (Rabs x) then sign x * exp (Rmin (Rabs x) 88) / 2 else sinh x.

Definition cosh_spec (x : R) : R :=
  if Rlt_dec 20 (Rabs x) then exp (Rmin (Rabs x) 88) / 2 else cosh x.

Definition Cp_spec (B C D E F T : R) : R :=
  let eps := 1e-7 in
  let u := clamp (D / (T + eps)) (-20) 20 in
  let v := clamp (F / (T + eps)) (-20) 20 in
  B + C * (u / (sinh_spec u + eps)) ^ 2 + E * (v / (cosh_spec v + eps)) ^ 2.

End CpLayer.

Module GroupGAT_Ensemble.

Section Ensemble.

(** A batch, its [global_feats] (the temperature), and the sub-models of
    the [ModuleDict], by name. *)
Variable Graph : Type.
Variable global_feats : Graph -> R.

(** [for model_name, model in self.models.items(): outputs[model_name] =
    model(data)] *)
Definition run_models (models : list (string * (Graph -> R))) (data : Graph)
  : list (string * R) :=
  fold_left (fun outputs nm => dict_set outputs (fst nm) (snd nm data))
            models [].

Definition output (outputs : list (string * R)) (k : string) : result R :=
  match dict_lookup outputs k with
  | Some v => Ok v
  | None => Raise (KeyError k)
  end.

Definition forward (models : list (string * (Graph -> R)))
           (data : Graph) : result R :=
  let T := global_feats data in
  let outputs := run_models models data in
  A <- output outputs "A" ;;
  B <- output outputs "B" ;;
  C <- output outputs "C" ;;
  D <- output outputs "D" ;;
  E <- output outputs "E" ;;
  Ok (CpLayer.forward A B C D E T).

End Ensemble.

End GroupGAT_Ensemble.

(** ** A small instance for running the dataset classes: features are
       trivial, a subset is a list of graphs, and the one splitter cuts the
       data after its first and second element. *)

Definition ToyData : Type := Data unit unit unit.

Definition toy_splitter (data : list ToyData) (a b c : Q)
  : result (list ToyData * list ToyData * list ToyData) :=
  Ok (firstn 1 data, firstn 1 (skipn 1 data), skipn 2 data).

Definition toy_DataSet_init :=
  DataSet_init toy_parse heavy symbols
               (fun _ => Ok tt) (fun _ _ _ => Ok tt) (fun _ _ => Ok tt)
               (fun _ : string => Raise (A := list ToyData) (ValueError "no file"))
               (GlobalFeat := unit).

Definition toy_MakeGraphDataSet_init :=
  MakeGraphDataSet_init toy_parse heavy symbols
               (fun _ => Ok tt) (fun _ _ _ => Ok tt) (fun _ _ => Ok tt)
               (fun _ : string => Raise (A := list ToyData) (ValueError "no file"))
               toy_splitter toy_splitter toy_splitter toy_splitter toy_splitter
               (GlobalFeat := unit).

Definition toy_smiles : list string := ["CC"; "C"; "CC"].
Definition toy_targets : list R := [1; 5; 3]%R.

(** The dataset those give: methane is filtered out with its target. *)
Definition toy_dataset : DataSetObj unit unit unit unit :=
  mkDataSet "./data" (Some ["CC"; "CC"]) (Some (standardize [1; 3]%R))
            [mkData tt tt tt ((1 - np_mean [1; 3]) / np_std [1; 3])%R;
             mkData tt tt tt ((3 - np_mean [1; 3]) / np_std [1; 3])%R]
            (Some tt).

(** ** src/dglchem/utils/data.py : DataSet.__len__, DataSet.__getitem__,
       MakeGraphDataSet.get_splits *)

(** [l[i]] for a Python [int] [i]: a negative index counts from the end. *)
Definition py_getitem {A : Type} (l : list A) (i : Z) : result A :=
  let n := Z.of_nat (List.length l) in
  if ((0 <=? i) && (i <? n))%Z then getitem l (Z.to_nat i)
  else if ((- n <=? i) && (i <? 0))%Z then getitem l (Z.to_nat (n + i))
  else Raise IndexError.

Section DataSetMethods.

Variables NodeFeat EdgeIndex EdgeFeat GlobalFeat Subset : Type.

Definition DataSet_len (self : DataSetObj NodeFeat EdgeIndex EdgeFeat GlobalFeat)
  : nat :=
  List.length (ds_data self).

Definition DataSet_getitem
           (self : DataSetObj NodeFeat EdgeIndex EdgeFeat GlobalFeat) (item : Z)
  : result (Data NodeFeat EdgeIndex EdgeFeat) :=
  py_getitem (ds_data self) item.

Variable ConsecutiveSplitter : Splitter NodeFeat EdgeIndex EdgeFeat Subset.
Variable RandomSplitter : Splitter NodeFeat EdgeIndex EdgeFeat Subset.
Variable MolecularWeightSplitter : Splitter NodeFeat EdgeIndex EdgeFeat Subset.
Variable ScaffoldSplitter : Splitter NodeFeat EdgeIndex EdgeFeat Subset.
Variable SingleTaskStratifiedSplitter : Splitter NodeFeat EdgeIndex EdgeFeat Subset.

Definition get_splits
           (self : MakeGraphDataSetObj NodeFeat EdgeIndex EdgeFeat GlobalFeat Subset)
  : result (SplitPart Subset * SplitPart Subset * SplitPart Subset) :=
  split_data ConsecutiveSplitter RandomSplitter MolecularWeightSplitter
             ScaffoldSplitter SingleTaskStratifiedSplitter
             (ds_data (base self)) (split_type self) (split_frac self)
             (custom_split self).

End DataSetMethods.

(** The keys of [split_func]. *)
Definition known_strategies : list string :=
  ["consecutive"; "random"; "molecular_weight"; "scaffold"; "stratified"].

Definition toy_construct :=
  construct_dataset toy_parse
                    (fun _ => Ok tt) (fun _ _ _ => Ok tt) (fun _ _ => Ok tt).

(** ** src/grape/utils/model_train_test.py : test_model *)

(** Reading a local variable; one that was never assigned raises
    [UnboundLocalError], which is a [NameError]. *)
Definition read_local {A : Type} (name : string) (v : option A) : result A :=
  match v with
  | Some a => Ok a
  | None => Raise (NameError name)
  end.

Section TestModel.

(** A mini-batch, a row of predictions, a row of latents, a loss value. *)
Variables Batch Row Latent Loss : Type.

(** [model(batch, return_latents=True)] on a model in evaluation mode: the
    predictions and the latent representations, a row per graph. *)
Variable model_eval : Batch -> list Row * list Latent.
Variable loss_mean : list Loss -> Loss.

(** The locals of the loop: the entries of [temp] written so far, and
    [preds] and [latents], unbound before the first batch. *)
Record TestState : Type := mkTestState {
  temp : list Loss;
  preds : option (list Row);
  latents : option (list Latent)
}.

(** Body of [for idx, batch in enumerate(test_data_loader)];
    [loss_func(batch.y, out)] is [f batch out]. *)
Definition test_step (loss_func : option (Batch -> list Row -> Loss))
           (st : TestState) (idx : nat) (batch : Batch) : result TestState :=
  let (out, lat) := model_eval batch in
  let temp := match loss_func with
              | Some f => temp st ++ [f batch out]
              | None => temp st
              end in
  if Nat.eqb idx 0 then Ok (mkTestState temp (Some out) (Some lat))
  else
    p <- read_local "preds" (preds st) ;;
    l <- read_local "latents" (latents st) ;;
    Ok (mkTestState temp (Some (p ++ out)) (Some (l ++ lat))).

Fixpoint test_loop (loss_func : option (Batch -> list Row -> Loss))
         (todo : list (nat * Batch)) (st : TestState) : result TestState :=
  match todo with
  | [] => Ok st
  | (idx, batch) :: todo' =>
      st' <- test_step loss_func st idx batch ;;
      test_loop loss_func todo' st'
  end.

(** The value returned: [(preds, latents, loss_test)] with a loss function,
    [(preds, latents)] without. *)
Definition test_model (loss_func : option (Batch -> list Row -> Loss))
           (test_data_loader : list Batch)
  : result (list Row * list Latent * option Loss) :=
  st <- test_loop loss_func (enumerate_from 0 test_data_loader)
                  (mkTestState [] None None) ;;
  match loss_func with
  | Some _ =>
      let loss_test := loss_mean (temp st) in
      p <- read_local "preds" (preds st) ;;
      l <- read_local "latents" (latents st) ;;
      Ok (p, l, Some loss_test)
  | None =>
      p <- read_local "preds" (preds st) ;;
      l <- read_local "latents" (latents st) ;;
      Ok (p, l, None)
  end.

(** The per-batch losses, when a loss function is given. *)
Definition batch_losses (loss_func : option (Batch -> list Row -> Loss))
           (loader : list Batch) : list Loss :=
  match loss_func with
  | Some f => map (fun b => f b (fst (model_eval b))) loader
  | None => []
  end.

End TestModel.

(** ** pred_metric: the value that belongs to a metric name *)

Section MetricValues.

Variable mean_squared_error : list Q -> list Q -> Q.
Variable mean_absolute_error : list Q -> list Q -> Q.
Variable r2_score : list Q -> list Q -> Q.


End MetricValues.

(** ** src/grape_chem/models/coupled_ensemble_module.py :
       old_GroupGAT_Ensemble *)

Module old_GroupGAT_Ensemble.

Section Old.

Variable Graph : Type.
Variable global_feats : Graph -> R.

(** The [ModuleDict] that [__init__] builds from its five sub-models. *)
Definition models (A_model B_model C_model D_model E_model : Graph -> R)
  : list (string * (Graph -> R)) :=
  [("A", A_model); ("B", B_model); ("C", C_model); ("D", D_model);
   ("E", E_model)].

Definition forward (models : list (string * (Graph -> R))) (data : Graph)
  : result R :=
  let T := global_feats data in
  mA <- dict_get models "A" ;;
  let A := mA data in
  mB <- dict_get models "B" ;;
  let B := mB data in
  mC <- dict_get models "C" ;;
  let C := mC data in
  mD <- dict_get models "D" ;;
  let D := mD data in
  mE <- dict_get models "E" ;;
  let E := mE data in
  Ok (CpLayer.forward A B C D E T).

End Old.

End old_GroupGAT_Ensemble.

(** ** src/grape_chem/plots/post_plots.py : parity_plot, as far as the data
       of the figure go *)

(** The builtin [min(a, b)] and [max(a, b)] on two numbers. *)
Definition py_min (a b : Q) : Q := if Qle_bool a b then a else b.
Definition py_max (a b : Q) : Q := if Qle_bool b a then a else b.

Definition empty_reduction_msg : string :=
  "zero-size array to reduction operation which has no identity".

(** [np.min] and [np.max]: no value on an empty array. *)
Definition np_minQ (a : list Q) : result Q :=
  match a with
  | [] => Raise (ValueError empty_reduction_msg)
  | v :: a' => Ok (fold_left py_min a' v)
  end.

Definition np_maxQ (a : list Q) : result Q :=
  match a with
  | [] => Raise (ValueError empty_reduction_msg)
  | v :: a' => Ok (fold_left py_max a' v)
  end.

Definition sizes_msg : string := "Predictions and targets are not the same size.".

(** What the figure is given: the points of the scatter plot, their
    colours, the axis limits, and the files written and logged. *)
Record ParityFigure : Type := mkParityFigure {
  scatter_x : list Q;
  scatter_y : list Q;
  scatter_c : option (list Q);
  xlim : Q * Q;
  ylim : Q * Q;
  saved_as : option string;
  logged_artifact : option string
}.

(** [f'{path_to_export}/parity_plot.svg']; [None] formats as 'None'. *)
Definition parity_file (path_to_export : option string) : string :=
  String.append (match path_to_export with Some p => p | None => "None" end)
                "/parity_plot.svg".

(** [cwd] is [os.getcwd()], [active_run] the truth of
    [mlflow.active_run()], [rescale_data] the method of that name of the
    data set handed in; creating the directory is left out. *)
Definition parity_plot (cwd : string) (active_run : bool)
           (prediction target : list Q) (mol_weights : option (list Q))
           (save_fig : bool) (path_to_export : option string)
           (rescale_data : option (list Q -> list Q)) : result ParityFigure :=
  if negb (Nat.eqb (List.length prediction) (List.length target))
  then Raise (AssertionError sizes_msg)
  else
    let path_to_export :=
      match path_to_export with
      | None => if save_fig
                then Some (String.append cwd "/analysis_results")
                else None
      | Some p => Some p
      end in
    let prediction :=
      match rescale_data with Some f => f prediction | None => prediction end in
    let target :=
      match rescale_data with Some f => f target | None => target end in
    pmin <- np_minQ prediction ;;
    tmin <- np_minQ target ;;
    let min_val := py_min pmin tmin in
    pmax <- np_maxQ prediction ;;
    tmax <- np_maxQ target ;;
    let max_val := py_max pmax tmax in
    Ok (mkParityFigure target prediction mol_weights
          (min_val, max_val) (min_val, max_val)
          (match path_to_export with
           | Some _ => Some (parity_file path_to_export)
           | None => None
           end)
          (if active_run then Some (parity_file path_to_export) else None)).

(** * Part II: theorems *)

(** ** filter_smiles *)

Example toy_filter_distinct :
  toy_filter ["CC"; "C"; "C[Na]"; "("] [1; 2; 3; 4]%Z = Ok (["CC"], [1]%Z).
Proof. reflexivity. Qed.

Example toy_filter_repeated :
  toy_filter ["C"; "C"; "CC"] [1; 2; 3]%Z = Ok (["C"; "CC"], [2; 3]%Z).
Proof. reflexivity. Qed.

Lemma existsb_repeat_other (n i m : nat) :
  n <> i -> existsb (Nat.eqb n) (repeat i m) = false.
Proof.
  intros Hn. induction m as [|m IH]; simpl; [reflexivity|].
  rewrite IH. apply Nat.eqb_neq in Hn. now rewrite Hn.
Qed.

Section FilterSmilesFacts.

Variable Mol : Type.
Variable MolFromSmiles : string -> option Mol.
Variable GetNumHeavyAtoms : Mol -> nat.
Variable GetSymbols : Mol -> list string.
Variable T : Type.

Let step := filter_step MolFromSmiles GetNumHeavyAtoms GetSymbols (T := T).
Let keep := keeps MolFromSmiles GetNumHeavyAtoms GetSymbols.

Lemma symbols_loop (allowed : list string) (df : DataFrame T) (element : string)
      (i : nat) (syms : list string) (l : list nat) :
  list_index element (col_smiles df) = Ok i ->
  fold_left
    (fun acc sym =>
       l <- acc ;;
       if negb (str_in sym allowed)
       then i <- list_index element (col_smiles df) ;; Ok (l ++ [i])
       else Ok l)
    syms (Ok l)
  = Ok (l ++ repeat i (count_bad allowed syms)).
Proof.
  intros Hi. rewrite Hi. revert l.
  induction syms as [|sym syms IH]; intros l; simpl.
  - now rewrite app_nil_r.
  - unfold count_bad; simpl.
    destruct (str_in sym allowed); simpl.
    + apply IH.
    + rewrite IH. now rewrite <- app_assoc.
Qed.

Lemma count_bad_zero (allowed : list string) (syms : list string) :
  count_bad allowed syms = 0%nat <->
  forallb (fun sym => str_in sym allowed) syms = true.
Proof.
  unfold count_bad.
  induction syms as [|sym syms IH]; simpl.
  - tauto.
  - destruct (str_in sym allowed); simpl; [exact IH|].
    split; discriminate.
Qed.

(** A string that passes the three conditions appends nothing. *)
Lemma filter_step_keep (allowed : list string) (df : DataFrame T)
      (element : string) (i : nat) :
  list_index element (col_smiles df) = Ok i ->
  keep allowed element = true ->
  step allowed df element = Ok [].
Proof.
  unfold keep, keeps, step, filter_step. intros Hi Hk.
  destruct (MolFromSmiles element) as [mol|]; [|discriminate].
  apply andb_true_iff in Hk as [Hh Hs].
  apply Nat.leb_le in Hh.
  destruct (Nat.ltb_spec (GetNumHeavyAtoms mol) 2); [lia|].
  rewrite (symbols_loop _ _ _ _ _ Hi).
  apply count_bad_zero in Hs. now rewrite Hs.
Qed.

(** A string that fails one of them appends the index of its first
    occurrence, once or more. *)
Lemma filter_step_reject (allowed : list string) (df : DataFrame T)
      (element : string) (i : nat) :
  list_index element (col_smiles df) = Ok i ->
  keep allowed element = false ->
  exists k, step allowed df element = Ok (repeat i (S k)).
Proof.
  unfold keep, keeps, step, filter_step. intros Hi Hk.
  destruct (MolFromSmiles element) as [mol|].
  - destruct (Nat.ltb_spec (GetNumHeavyAtoms mol) 2) as [Hlt|Hge].
    + exists 0%nat. now rewrite Hi.
    + rewrite (symbols_loop _ _ _ _ _ Hi).
      destruct (count_bad allowed (GetSymbols mol)) as [|k] eqn:Hc.
      * apply count_bad_zero in Hc. rewrite Hc in Hk.
        apply Nat.leb_le in Hge. rewrite Hge in Hk. discriminate.
      * exists k. reflexivity.
  - exists 0%nat. now rewrite Hi.
Qed.

(** The loop on a rejected string given twice: only the label 0 is
    recorded, whatever the second column of the frame holds. *)
Lemma filter_loop_repeated_reject (allowed : list string) (s : string) (t1 t2 : T) :
  keep allowed s = false ->
  exists k,
    filter_loop MolFromSmiles GetNumHeavyAtoms GetSymbols allowed
                [(0%nat, (s, t1)); (1%nat, (s, t2))] [s; s] []
    = Ok (repeat 0%nat (S k)).
Proof.
  intros Hk.
  assert (Hi : list_index s (col_smiles (T := T) [(0%nat, (s, t1)); (1%nat, (s, t2))])
               = Ok 0%nat).
  { simpl. now rewrite String.eqb_refl. }
  destruct (filter_step_reject _ _ _ Hi Hk) as [k Hstep].
  exists (k + S k)%nat.
  unfold step in Hstep. cbn [filter_loop]. rewrite Hstep.
  cbn [bind app]. rewrite <- repeat_app. reflexivity.
Qed.

Lemma drop_label_zero (s : string) (t1 t2 : T) (k : nat) :
  df_drop (repeat 0%nat (S k)) [(0%nat, (s, t1)); (1%nat, (s, t2))]
  = Ok [(1%nat, (s, t2))].
Proof.
  unfold df_drop.
  assert (Hlab : forallb (has_label [(0%nat, (s, t1)); (1%nat, (s, t2))])
                         (repeat 0%nat (S k)) = true).
  { induction (S k); simpl; auto. }
  rewrite Hlab.
  cbn [filter fst]. rewrite (@existsb_repeat_other 1 0 (S k)) by discriminate.
  reflexivity.
Qed.

(** *** What the filter returns in general *)

Lemma list_index_nth (x : string) (l : list string) (i : nat) :
  list_index x l = Ok i -> nth_error l i = Some x.
Proof.
  revert i. induction l as [|y l IH]; intros i H; [discriminate|].
  cbn in H. destruct (String.eqb y x) eqn:E.
  - injection H as <-. apply String.eqb_eq in E. now subst.
  - destruct (list_index x l) as [j|]; [|discriminate].
    cbn in H. injection H as <-. cbn. now apply IH.
Qed.

Lemma list_index_In (x : string) (l : list string) :
  In x l -> exists i, list_index x l = Ok i.
Proof.
  induction l as [|y l IH]; intros Hin; [contradiction|].
  cbn. destruct (String.eqb y x) eqn:E; [now exists 0%nat|].
  destruct Hin as [->|Hin]; [now rewrite String.eqb_refl in E|].
  destruct (IH Hin) as [i Hi]. rewrite Hi. now exists (S i).
Qed.

Lemma col_smiles_frame (n : nat) (smiles : list string) (target : list T) :
  List.length smiles = List.length target ->
  col_smiles (enumerate_from n (combine smiles target)) = smiles.
Proof.
  revert n target. induction smiles as [|s smiles IH]; intros n [|t target] H;
    try discriminate; [reflexivity|].
  cbn. f_equal. apply IH. now injection H.
Qed.

Lemma frame_rows (n i : nat) (rows : list (string * T)) (r : string * T) :
  In (i, r) (enumerate_from n rows) ->
  (n <= i)%nat /\ nth_error rows (i - n) = Some r.
Proof.
  revert n. induction rows as [|r0 rows IH]; intros n Hin; [contradiction|].
  destruct Hin as [Heq|Hin].
  - injection Heq as <- <-. rewrite Nat.sub_diag. split; [lia|reflexivity].
  - apply IH in Hin as [Hle Hnth]. split; [lia|].
    replace (i - n)%nat with (S (i - S n)) by lia. exact Hnth.
Qed.

Lemma has_label_frame (n i : nat) (rows : list (string * T)) :
  (n <= i < n + List.length rows)%nat ->
  has_label (enumerate_from n rows) i = true.
Proof.
  revert n. induction rows as [|r rows IH]; intros n H; cbn in *; [lia|].
  destruct (Nat.eqb_spec n i); [reflexivity|]. apply IH. lia.
Qed.

Lemma nth_error_combine_fst (A B : Type) (l : list A) (l' : list B) (i : nat)
      (a : A) (b : B) :
  nth_error (combine l l') i = Some (a, b) -> nth_error l i = Some a.
Proof.
  revert l' i. induction l as [|x l IH]; intros [|y l'] [|i] H;
    try discriminate.
  - cbn in H. injection H as -> _. reflexivity.
  - cbn in *. now apply IH with l'.
Qed.

(** The labels the loop collects: the first-occurrence indices of the
    rejected strings. *)
Lemma filter_loop_indices (allowed : list string) (df : DataFrame T)
      (todo : list string) (acc : list nat) :
  (forall s, In s todo -> In s (col_smiles df)) ->
  exists idx,
    filter_loop MolFromSmiles GetNumHeavyAtoms GetSymbols allowed df todo acc
    = Ok idx
    /\ forall i, In i idx <->
                 In i acc
                 \/ exists s, In s todo /\ keep allowed s = false
                              /\ list_index s (col_smiles df) = Ok i.
Proof.
  revert acc. induction todo as [|s todo IH]; intros acc Hall.
  - exists acc. split; [reflexivity|]. intros i. split; [now left|].
    intros [H|(s & [] & _)]. exact H.
  - destruct (list_index_In s (col_smiles df)) as [i0 Hi0];
      [apply Hall; now left|].
    cbn [filter_loop]. fold step.
    assert (Hstep : exists new,
               step allowed df s = Ok new
               /\ forall i, In i new <-> keep allowed s = false /\ i0 = i).
    { destruct (keep allowed s) eqn:Hk.
      - exists []. split; [now apply filter_step_keep with i0|].
        intros i. split; [contradiction|]. intros [H _]. discriminate.
      - destruct (filter_step_reject _ _ _ Hi0 Hk) as [k Hk'].
        exists (repeat i0 (S k)). split; [exact Hk'|].
        intros i. split.
        + intros H. apply repeat_spec in H. now subst.
        + intros [_ <-]. now left. }
    destruct Hstep as (new & Hnew & Hin). rewrite Hnew. cbn [bind].
    destruct (IH (acc ++ new)) as (idx & Hidx & Hspec).
    { intros s' Hs'. apply Hall. now right. }
    exists idx. split; [exact Hidx|]. intros i. rewrite Hspec, in_app_iff, Hin.
    split.
    + intros [[H|[Hk <-]]|(s' & Hs' & Hk & Hi)].
      * now left.
      * right. exists s. repeat split; [now left|exact Hk|exact Hi0].
      * right. exists s'. repeat split; [now right|exact Hk|exact Hi].
    + intros [H|(s' & [<-|Hs'] & Hk & Hi)].
      * left. now left.
      * left. right. split; [exact Hk|]. rewrite Hi0 in Hi. now injection Hi.
      * right. exists s'. now repeat split.
Qed.

(** For inputs of equal length [filter_smiles] returns, and what it
    returns are the rows that [survives] keeps. *)
Lemma filter_smiles_rows (smiles : list string) (target : list T)
      (allowed_atoms : option (list string)) (print_out : bool) :
  List.length smiles = List.length target ->
  filter_smiles MolFromSmiles GetNumHeavyAtoms GetSymbols
                smiles target allowed_atoms print_out
  = Ok (let kept :=
          filter (survives MolFromSmiles GetNumHeavyAtoms GetSymbols
                           (or_default allowed_atoms default_allowed_atoms) smiles)
                 (enumerate_from 0 (combine smiles target)) in
        (col_smiles kept, col_target kept)).
Proof.
  intros Hlen. unfold filter_smiles, mk_frame.
  rewrite Hlen, Nat.eqb_refl. cbn [bind].
  set (allowed := or_default allowed_atoms default_allowed_atoms).
  set (df := enumerate_from 0 (combine smiles target)).
  assert (Hcol : col_smiles df = smiles) by now apply col_smiles_frame.
  destruct (filter_loop_indices allowed df smiles []) as (idx & Hidx & Hspec).
  { intros s Hs. now rewrite Hcol. }
  rewrite Hidx. cbn [bind]. rewrite Hcol in Hspec.
  unfold df_drop.
  assert (Hlab : forallb (has_label df) idx = true).
  { apply forallb_forall. intros i Hi. apply Hspec in Hi as [[]|(s & _ & _ & Hi)].
    apply list_index_nth in Hi. apply has_label_frame.
    assert (i < List.length smiles)%nat
      by (apply nth_error_Some; now rewrite Hi).
    rewrite length_combine, <- Hlen, Nat.min_id. lia. }
  rewrite Hlab. cbn [bind]. cbv zeta. do 2 f_equal.
  all: f_equal; apply filter_ext_in; intros [i [s t]] Hr.
  all: apply frame_rows in Hr as [_ Hnth]; rewrite Nat.sub_0_r in Hnth.
  all: apply nth_error_combine_fst in Hnth.
  all: unfold survives, first_at; cbn [fst snd]; fold keep.
  all: destruct (existsb (Nat.eqb i) idx) eqn:Hex; cbn [negb].
  all: try (apply existsb_exists in Hex as (j & Hj & Hij);
            apply Nat.eqb_eq in Hij; subst j;
            apply Hspec in Hj as [[]|(s' & _ & Hk & Hi)];
            pose proof (list_index_nth _ _ Hi) as Hs';
            rewrite Hnth in Hs'; injection Hs' as <-;
            now rewrite Hk, Hi, Nat.eqb_refl).
  all: destruct (keep allowed s) eqn:Hk; [reflexivity|]; cbn [orb].
  all: destruct (list_index s smiles) as [j|] eqn:Hj; [|reflexivity].
  all: destruct (Nat.eqb_spec j i) as [->|]; [|reflexivity].
  all: exfalso;
    assert (Hin : In i idx)
      by (apply Hspec; right; exists s;
          repeat split; [now apply nth_error_In with i|exact Hk|exact Hj]).
  all: assert (existsb (Nat.eqb i) idx = true)
      by (apply existsb_exists; exists i; split;
          [exact Hin|apply Nat.eqb_refl]).
  all: congruence.
Qed.

Lemma filter_frame (n : nat) (rows : list (string * T)) (f : string * T -> bool) :
  map snd (filter (fun r => f (snd r)) (enumerate_from n rows)) = filter f rows.
Proof.
  revert n. induction rows as [|r rows IH]; intros n; [reflexivity|].
  cbn. destruct (f r); cbn; now rewrite IH.
Qed.

(** On strings that are pairwise distinct the filter does what is wanted
    of it: it returns the pairs whose string passes the three conditions,
    in their order. *)
Lemma filter_smiles_nodup (smiles : list string) (target : list T)
      (allowed_atoms : option (list string)) (print_out : bool) :
  NoDup smiles ->
  List.length smiles = List.length target ->
  filter_smiles MolFromSmiles GetNumHeavyAtoms GetSymbols
                smiles target allowed_atoms print_out
  = Ok (let kept :=
          filter (fun r => keep (or_default allowed_atoms default_allowed_atoms)
                                (fst r))
                 (combine smiles target) in
        (map fst kept, map snd kept)).
Proof.
  intros Hnd Hlen.
  rewrite (@filter_smiles_rows smiles target allowed_atoms print_out Hlen).
  cbv zeta.
  set (allowed := or_default allowed_atoms default_allowed_atoms).
  rewrite <- (filter_frame 0 (combine smiles target)
                (fun r => keep allowed (fst r))).
  unfold col_smiles, col_target. rewrite !map_map.
  do 2 f_equal.
  all: f_equal; apply filter_ext_in; intros [i [s t]] Hr.
  all: apply frame_rows in Hr as [_ Hnth]; rewrite Nat.sub_0_r in Hnth.
  all: apply nth_error_combine_fst in Hnth.
  all: unfold survives, first_at; cbn [fst snd]; fold keep.
  all: destruct (list_index_In s smiles) as [j Hj];
    [now apply nth_error_In with i|].
  all: rewrite Hj; pose proof (list_index_nth _ _ Hj) as Hs.
  all: assert (j = i)
    by (apply (proj1 (NoDup_nth_error smiles) Hnd);
        [apply nth_error_Some; now rewrite Hs|now rewrite Hs, Hnth]).
  all: subst j; rewrite Nat.eqb_refl; cbn [negb]; now rewrite orb_false_r.
Qed.

End FilterSmilesFacts.

(** C1, at the failing input: a rejected string given twice, in
    [filter_smiles] of data.py and in the earlier one of data_load.py.
    Both rounds of the loop look the string up with [index], which answers
    0 both times; row 1 is never dropped and comes out of the filter. *)
Theorem filter_smiles_repeated_reject
        (Mol : Type) (MolFromSmiles : string -> option Mol)
        (GetNumHeavyAtoms : Mol -> nat) (GetSymbols : Mol -> list string)
        (T : Type) (s : string) (t1 t2 : T) (print_out : bool) :
  keeps MolFromSmiles GetNumHeavyAtoms GetSymbols default_allowed_atoms s = false ->
  filter_smiles MolFromSmiles GetNumHeavyAtoms GetSymbols
                [s; s] [t1; t2] None print_out
  = Ok ([s], [t2])
  /\ DataLoad.filter_smiles MolFromSmiles GetNumHeavyAtoms GetSymbols [s; s] None
     = Ok [s].
Proof.
  intros Hk. split.
  - unfold filter_smiles.
    cbn [or_default mk_frame List.length Nat.eqb combine enumerate_from bind].
    destruct (filter_loop_repeated_reject MolFromSmiles GetNumHeavyAtoms
                GetSymbols default_allowed_atoms s t1 t2 Hk) as [k Hloop].
    rewrite Hloop. cbn [bind]. rewrite drop_label_zero. reflexivity.
  - unfold DataLoad.filter_smiles. cbn [or_default map enumerate_from].
    destruct (filter_loop_repeated_reject MolFromSmiles GetNumHeavyAtoms
                GetSymbols default_allowed_atoms s tt tt Hk) as [k Hloop].
    rewrite Hloop. cbn [bind]. rewrite drop_label_zero. reflexivity.
Qed.

Lemma filter_smiles_repeated_reject_witness :
  keeps toy_parse heavy symbols default_allowed_atoms "C" = false /\
  (filter_smiles toy_parse heavy symbols ["C"; "C"] [1; 2]%Z None false
   = Ok (["C"], [2]%Z)
   /\ DataLoad.filter_smiles toy_parse heavy symbols ["C"; "C"] None = Ok ["C"]).
Proof.
  split; [reflexivity|].
  apply (@filter_smiles_repeated_reject ToyMol toy_parse heavy symbols Z "C"
           1%Z 2%Z false).
  reflexivity.
Defined.

(** ** numpy reductions and standardization *)

Section Standardize.

Local Open Scope R_scope.

Lemma np_sum_cons (t : R) (a : list R) : np_sum (t :: a) = t + np_sum a.
Proof. reflexivity. Qed.

Lemma np_sum_affine (a : list R) (m s : R) :
  np_sum (map (fun t => (t - m) / s) a)
  = (np_sum a - INR (List.length a) * m) / s.
Proof.
  induction a as [|t a IH].
  - simpl. unfold Rdiv. ring.
  - change (np_sum (map (fun t => (t - m) / s) (t :: a)))
      with ((t - m) / s + np_sum (map (fun t => (t - m) / s) a)).
    rewrite IH.
    change (np_sum (t :: a)) with (t + np_sum a).
    change (List.length (t :: a)) with (S (List.length a)).
    rewrite S_INR. unfold Rdiv. ring.
Qed.

Lemma np_sum_scaled (a : list R) (f : R -> R) (c : R) :
  np_sum (map (fun t => f t * c) a) = np_sum (map f a) * c.
Proof.
  induction a as [|t a IH]; [simpl; ring|].
  cbn [map]. rewrite !np_sum_cons, IH. ring.
Qed.

Lemma np_sum_nonneg (a : list R) :
  Forall (fun v => 0 <= v) a -> 0 <= np_sum a.
Proof.
  induction 1 as [|v a Hv _ IH]; [simpl; lra|].
  rewrite np_sum_cons. lra.
Qed.

Lemma np_sum_pos (a : list R) (v : R) :
  Forall (fun v => 0 <= v) a -> In v a -> 0 < v -> 0 < np_sum a.
Proof.
  induction 1 as [|w a Hw Ha IH]; intros Hin Hv; [contradiction|].
  rewrite np_sum_cons. pose proof (@np_sum_nonneg _ Ha) as Hs.
  destruct Hin as [->|Hin]; [lra|].
  specialize (IH Hin Hv). lra.
Qed.

Lemma sq_dev_nonneg (a : list R) (m : R) :
  Forall (fun v => 0 <= v) (map (fun v => (v - m) * (v - m)) a).
Proof.
  apply Forall_forall. intros v Hv.
  apply in_map_iff in Hv as [t [<- _]]. cbv beta.
  pose proof (Rle_0_sqr (t - m)) as H. unfold Rsqr in H. exact H.
Qed.

Lemma length_pos_INR (A : Type) (a : list A) (t : A) :
  In t a -> 0 < INR (List.length a).
Proof.
  destruct a; [contradiction|]. intros _.
  change (List.length (a :: a0)) with (S (List.length a0)).
  rewrite S_INR. pose proof (pos_INR (List.length a0)). lra.
Qed.

(** Targets that are not all equal have a positive standard deviation. *)
Lemma np_std_pos (a : list R) (u v : R) :
  In u a -> In v a -> u <> v -> 0 < np_std a.
Proof.
  intros Hu Hv Huv. unfold np_std.
  apply sqrt_lt_R0. unfold np_mean at 1.
  rewrite length_map.
  apply Rdiv_lt_0_compat; [|exact (@length_pos_INR _ _ _ Hu)].
  set (m := np_mean a).
  destruct (Req_dec u m) as [Hum|Hum].
  - apply np_sum_pos with (v := (v - m) * (v - m)).
    + apply sq_dev_nonneg.
    + apply in_map_iff. exists v. now split.
    + assert (v - m <> 0) by lra. nra.
  - apply np_sum_pos with (v := (u - m) * (u - m)).
    + apply sq_dev_nonneg.
    + apply in_map_iff. exists u. now split.
    + assert (u - m <> 0) by lra. nra.
Qed.

Lemma standardize_length (a : list R) :
  List.length (standardize a) = List.length a.
Proof. unfold standardize. apply length_map. Qed.

(** Standardized targets have mean zero ... *)
Lemma np_mean_standardize (a : list R) (t : R) :
  In t a -> np_std a <> 0 -> np_mean (standardize a) = 0.
Proof.
  intros Ht Hs. unfold np_mean at 1. rewrite standardize_length.
  unfold standardize. rewrite np_sum_affine.
  pose proof (@length_pos_INR _ _ _ Ht) as Hn.
  unfold np_mean. field. split; lra.
Qed.

(** The square of [np.std] is the mean squared deviation. *)
Lemma np_std_sqr (a : list R) (t : R) :
  In t a ->
  np_std a * np_std a
  = np_sum (map (fun v => (v - np_mean a) * (v - np_mean a)) a)
    / INR (List.length a).
Proof.
  intros Ht. unfold np_std. rewrite sqrt_sqrt.
  - unfold np_mean at 1. now rewrite length_map.
  - unfold np_mean at 1. rewrite length_map.
    apply Rmult_le_pos.
    + apply np_sum_nonneg, sq_dev_nonneg.
    + left. apply Rinv_0_lt_compat. exact (@length_pos_INR _ _ _ Ht).
Qed.

(** ... and standard deviation one. *)
Lemma np_std_standardize (a : list R) (u v : R) :
  In u a -> In v a -> u <> v -> np_std (standardize a) = 1.
Proof.
  intros Hu Hv Huv.
  pose proof (@np_std_pos _ _ _ Hu Hv Huv) as Hs.
  assert (Hs0 : np_std a <> 0) by lra.
  pose proof (@length_pos_INR _ _ _ Hu) as Hn.
  pose proof (@np_std_sqr _ _ Hu) as Hsq.
  unfold np_std at 1.
  rewrite (@np_mean_standardize _ _ Hu Hs0).
  unfold np_mean at 1. rewrite length_map, standardize_length.
  unfold standardize. rewrite map_map.
  rewrite (map_ext _ (fun t => ((t - np_mean a) * (t - np_mean a))
                               * / (np_std a * np_std a))).
  2:{ intros t. field. exact Hs0. }
  rewrite np_sum_scaled.
  set (S2 := np_sum (map (fun v => (v - np_mean a) * (v - np_mean a)) a)) in *.
  rewrite Hsq.
  assert (HS2 : 0 < S2).
  { assert (0 < np_std a * np_std a) as H by nra.
    rewrite Hsq in H. unfold Rdiv in H.
    assert (0 < / INR (List.length a)) by now apply Rinv_0_lt_compat.
    nra. }
  replace (S2 * / (S2 / INR (List.length a)) / INR (List.length a)) with 1.
  - apply sqrt_1.
  - field. split; lra.
Qed.

End Standardize.

(** ** split_data and MakeGraphDataSet *)

Section DataSetsFacts.

Variable Mol : Type.
Variable MolFromSmiles : string -> option Mol.
Variable GetNumHeavyAtoms : Mol -> nat.
Variable GetSymbols : Mol -> list string.
Variables NodeFeat EdgeIndex EdgeFeat GlobalFeat : Type.
Variable adjacency_edges : Mol -> result EdgeIndex.
Variable AtomFeaturizer : option (list string) -> list string -> Mol -> result NodeFeat.
Variable BondFeaturizer : list string -> Mol -> result EdgeFeat.
Variable pickle_load : string -> result (list (Data NodeFeat EdgeIndex EdgeFeat)).
Variable Subset : Type.
Variable ConsecutiveSplitter : Splitter NodeFeat EdgeIndex EdgeFeat Subset.
Variable RandomSplitter : Splitter NodeFeat EdgeIndex EdgeFeat Subset.
Variable MolecularWeightSplitter : Splitter NodeFeat EdgeIndex EdgeFeat Subset.
Variable ScaffoldSplitter : Splitter NodeFeat EdgeIndex EdgeFeat Subset.
Variable SingleTaskStratifiedSplitter : Splitter NodeFeat EdgeIndex EdgeFeat Subset.

Let split :=
  split_data ConsecutiveSplitter RandomSplitter MolecularWeightSplitter
             ScaffoldSplitter SingleTaskStratifiedSplitter.

Let dataset_init :=
  DataSet_init MolFromSmiles GetNumHeavyAtoms GetSymbols adjacency_edges
               AtomFeaturizer BondFeaturizer pickle_load (GlobalFeat := GlobalFeat).

Let make_init :=
  MakeGraphDataSet_init MolFromSmiles GetNumHeavyAtoms GetSymbols adjacency_edges
               AtomFeaturizer BondFeaturizer pickle_load
               ConsecutiveSplitter RandomSplitter MolecularWeightSplitter
               ScaffoldSplitter SingleTaskStratifiedSplitter
               (GlobalFeat := GlobalFeat).

(** C4, on the custom strategy: whatever the dataset and the label array,
    [split_data] returns no partition at all, so no component of it holds
    the elements labelled 0, 1 or 2. *)
Theorem split_data_custom_never_returns
        (data : list (Data NodeFeat EdgeIndex EdgeFeat)) (split_frac : list Q)
        (custom_split : option (list Z)) :
  is_ok (split data "custom" split_frac custom_split) = false.
Proof.
  unfold split, split_data. cbn [String.eqb Ascii.eqb Bool.eqb andb].
  destruct custom_split; reflexivity.
Qed.

(** C5: under the custom strategy an absent label array fails the
    assertion, and a label array that is present, of any length, matching
    or not, stops at the unbound name [self] before its length is
    compared. *)
Theorem split_data_custom_errors
        (data : list (Data NodeFeat EdgeIndex EdgeFeat)) (split_frac : list Q) :
  split data "custom" split_frac None = Raise (AssertionError custom_split_msg)
  /\ forall a : list Z,
      split data "custom" split_frac (Some a) = Raise (NameError "self").
Proof.
  split; [reflexivity|]. intros a. reflexivity.
Qed.

(** A name-based strategy hands the data and the three fractions to the
    splitter of that name and returns its (train, validation, test). *)
Lemma split_data_named
      (data : list (Data NodeFeat EdgeIndex EdgeFeat)) (split_type : string)
      (f0 f1 f2 : Q) (rest : list Q) (custom_split : option (list Z))
      (splitter : Splitter NodeFeat EdgeIndex EdgeFeat Subset)
      (tr va te : Subset) :
  String.eqb split_type "custom" = false ->
  dict_get (split_func ConsecutiveSplitter RandomSplitter MolecularWeightSplitter
                       ScaffoldSplitter SingleTaskStratifiedSplitter)
           split_type = Ok splitter ->
  splitter data f0 f1 f2 = Ok (tr, va, te) ->
  split data split_type (f0 :: f1 :: f2 :: rest) custom_split
  = Ok (PartSubset tr, PartSubset va, PartSubset te).
Proof.
  intros Hc Hd Hs. unfold split, split_data.
  rewrite Hc, Hd. cbn [bind getitem nth_error]. rewrite Hs. reflexivity.
Qed.

(** C6: the check on the fractions lets every list through whose sum is
    not zero; with [split = False] the construction then succeeds, whatever
    the sum is. *)
Theorem split_frac_check_accepts_nonzero_sum
        (path : option string) (smiles : option (list string))
        (target : option (list R)) (global_features : GlobalFeat)
        (allowed_atoms atom_feature_list bond_feature_list : option (list string))
        (split_type : option string) (split_frac : list Q)
        (custom_split : option (list Z)) (log : bool)
        (self : DataSetObj NodeFeat EdgeIndex EdgeFeat GlobalFeat) :
  dataset_init path smiles target global_features allowed_atoms
               atom_feature_list bond_feature_list log None = Ok self ->
  ~ (np_sumQ split_frac == 0)%Q ->
  make_init path smiles target global_features allowed_atoms atom_feature_list
            bond_feature_list false split_type (Some split_frac) custom_split log
  = Ok (mkMakeGraphDataSet (Subset := Subset) self custom_split
          (or_default split_type "random") split_frac None None None).
Proof.
  intros Hinit Hsum. unfold make_init, MakeGraphDataSet_init.
  fold dataset_init. rewrite Hinit. cbn [bind or_default].
  unfold truthy.
  destruct (Qeq_bool (np_sumQ split_frac) 0) eqn:Hq.
  - apply Qeq_bool_eq in Hq. contradiction.
  - reflexivity.
Qed.

(** The one list of fractions the check turns down: a sum of zero. *)
Lemma split_frac_check_rejects_zero_sum
      (path : option string) (smiles : option (list string))
      (target : option (list R)) (global_features : GlobalFeat)
      (allowed_atoms atom_feature_list bond_feature_list : option (list string))
      (split_flag : bool) (split_type : option string) (split_frac : list Q)
      (custom_split : option (list Z)) (log : bool)
      (self : DataSetObj NodeFeat EdgeIndex EdgeFeat GlobalFeat) :
  dataset_init path smiles target global_features allowed_atoms
               atom_feature_list bond_feature_list log None = Ok self ->
  (np_sumQ split_frac == 0)%Q ->
  make_init path smiles target global_features allowed_atoms atom_feature_list
            bond_feature_list split_flag split_type (Some split_frac)
            custom_split log
  = Raise (AssertionError split_frac_msg).
Proof.
  intros Hinit Hsum. unfold make_init, MakeGraphDataSet_init.
  fold dataset_init. rewrite Hinit. cbn [bind or_default].
  unfold truthy. apply Qeq_eq_bool in Hsum. now rewrite Hsum.
Qed.

(** C10: with [split = True] and a name-based strategy, the splitter's
    (train, validation, test) lands in the attributes [train], [test],
    [val], by position: [test] holds the validation subset and [val] the
    test subset. *)
Theorem split_binds_train_test_val
        (path : option string) (smiles : option (list string))
        (target : option (list R)) (global_features : GlobalFeat)
        (allowed_atoms atom_feature_list bond_feature_list : option (list string))
        (split_type : string) (f0 f1 f2 : Q) (rest : list Q)
        (custom_split : option (list Z)) (log : bool)
        (self : DataSetObj NodeFeat EdgeIndex EdgeFeat GlobalFeat)
        (splitter : Splitter NodeFeat EdgeIndex EdgeFeat Subset)
        (tr va te : Subset) :
  dataset_init path smiles target global_features allowed_atoms
               atom_feature_list bond_feature_list log None = Ok self ->
  ~ (np_sumQ (f0 :: f1 :: f2 :: rest) == 0)%Q ->
  String.eqb split_type "custom" = false ->
  dict_get (split_func ConsecutiveSplitter RandomSplitter MolecularWeightSplitter
                       ScaffoldSplitter SingleTaskStratifiedSplitter)
           split_type = Ok splitter ->
  splitter (ds_data self) f0 f1 f2 = Ok (tr, va, te) ->
  exists obj,
    make_init path smiles target global_features allowed_atoms atom_feature_list
              bond_feature_list true (Some split_type)
              (Some (f0 :: f1 :: f2 :: rest)) custom_split log
    = Ok obj
    /\ base obj = self
    /\ train obj = Some (PartSubset tr)
    /\ test obj = Some (PartSubset va)
    /\ val obj = Some (PartSubset te).
Proof.
  intros Hinit Hsum Hc Hd Hs.
  eexists. split.
  - unfold make_init, MakeGraphDataSet_init.
    fold dataset_init. rewrite Hinit. cbn [bind or_default].
    unfold truthy.
    destruct (Qeq_bool (np_sumQ (f0 :: f1 :: f2 :: rest)) 0) eqn:Hq.
    { apply Qeq_bool_eq in Hq. contradiction. }
    cbn [negb]. fold split.
    rewrite (@split_data_named (ds_data self) split_type f0 f1 f2 rest
               custom_split splitter tr va te Hc Hd Hs). cbn [bind]. reflexivity.
  - cbn. repeat split; reflexivity.
Qed.

(** *** DataSet: the targets of the graphs *)

Lemma filter_smiles_lengths (T : Type) (smiles : list string) (target : list T)
      (allowed_atoms : option (list string)) (print_out : bool)
      (fs : list string) (ft : list T) :
  filter_smiles MolFromSmiles GetNumHeavyAtoms GetSymbols smiles target
                allowed_atoms print_out = Ok (fs, ft) ->
  List.length fs = List.length ft.
Proof.
  unfold filter_smiles. intros H.
  destruct (mk_frame smiles target) as [df|]; [|discriminate].
  cbn [bind] in H.
  destruct (filter_loop _ _ _ _ _ _ _) as [idx|]; [|discriminate].
  cbn [bind] in H.
  destruct (df_drop idx df) as [df'|]; [|discriminate].
  cbn [bind] in H. injection H as <- <-.
  unfold col_smiles, col_target. now rewrite !length_map.
Qed.

(** The loop of [construct_dataset] appends one graph per pair (smile, i),
    carrying [target[i]]. *)
Lemma construct_loop_targets
      (af : Mol -> result NodeFeat) (bf : Mol -> result EdgeFeat)
      (target : list R) (todo : list (string * nat))
      (acc data : list (Data NodeFeat EdgeIndex EdgeFeat)) :
  construct_loop MolFromSmiles adjacency_edges af bf target todo acc = Ok data ->
  map Some (map (@y _ _ _) data)
  = map Some (map (@y _ _ _) acc) ++ map (fun p => nth_error target (snd p)) todo.
Proof.
  revert acc. induction todo as [|[smile i] todo IH]; intros acc H.
  - cbn in H. injection H as <-. cbn. now rewrite app_nil_r.
  - cbn [construct_loop] in H.
    destruct (construct_one MolFromSmiles adjacency_edges af bf target smile i)
      as [d|] eqn:Hone; [|discriminate].
    cbn [bind] in H. apply IH in H. rewrite H.
    rewrite !map_app. cbn [map snd]. rewrite <- app_assoc. cbn [app].
    do 2 f_equal.
    unfold construct_one in Hone.
    destruct (MolFromSmiles smile) as [mol|]; [|discriminate].
    destruct (adjacency_edges mol); [|discriminate].
    destruct (af mol); [|discriminate].
    destruct (bf mol); [|discriminate].
    cbn [bind] in Hone. unfold getitem in Hone.
    destruct (nth_error target i); [|discriminate].
    cbn [bind] in Hone. injection Hone as <-. reflexivity.
Qed.

Lemma nth_error_seq_all (A : Type) (pre l : list A) :
  map (nth_error (pre ++ l)) (seq (List.length pre) (List.length l)) = map Some l.
Proof.
  revert pre. induction l as [|a l IH]; intros pre; [reflexivity|].
  cbn [List.length seq map]. f_equal.
  - rewrite nth_error_app2 by lia. now rewrite Nat.sub_diag.
  - specialize (IH (pre ++ [a])).
    rewrite <- app_assoc, length_app in IH. cbn in IH.
    rewrite Nat.add_1_r in IH. exact IH.
Qed.

Lemma map_snd_combine (A B : Type) (l : list A) (l' : list B) :
  List.length l = List.length l' -> map snd (combine l l') = l'.
Proof.
  revert l'. induction l as [|a l IH]; intros [|b l'] H; try discriminate.
  - reflexivity.
  - cbn. f_equal. apply IH. now injection H.
Qed.

Lemma map_Some_inj (A : Type) (l l' : list A) :
  map Some l = map Some l' -> l = l'.
Proof.
  revert l'. induction l as [|a l IH]; intros [|b l'] H; try discriminate.
  - reflexivity.
  - cbn in H. injection H as -> H. f_equal. now apply IH.
Qed.

Lemma construct_dataset_targets (smiles : list string) (target : list R)
      (allowed_atoms afl bfl : option (list string))
      (data : list (Data NodeFeat EdgeIndex EdgeFeat)) :
  List.length smiles = List.length target ->
  construct_dataset MolFromSmiles adjacency_edges AtomFeaturizer BondFeaturizer
                    smiles target allowed_atoms afl bfl = Ok data ->
  map (@y _ _ _) data = target.
Proof.
  intros Hlen H. unfold construct_dataset in H.
  apply construct_loop_targets in H. cbn [map app] in H.
  apply map_Some_inj. rewrite H.
  rewrite <- (map_map snd (nth_error target)).
  rewrite map_snd_combine by now rewrite length_seq.
  rewrite Hlen. exact (nth_error_seq_all [] target).
Qed.

(** The loop of [construct_dataset] goes through when every string parses,
    the feature functions answer and every index is within the targets. *)
Lemma construct_loop_returns
      (af : Mol -> result NodeFeat) (bf : Mol -> result EdgeFeat)
      (target : list R) (todo : list (string * nat))
      (acc : list (Data NodeFeat EdgeIndex EdgeFeat)) :
  (forall mol, is_ok (adjacency_edges mol) = true) ->
  (forall mol, is_ok (af mol) = true) ->
  (forall mol, is_ok (bf mol) = true) ->
  (forall s i, In (s, i) todo ->
               MolFromSmiles s <> None /\ (i < List.length target)%nat) ->
  exists data,
    construct_loop MolFromSmiles adjacency_edges af bf target todo acc = Ok data.
Proof.
  intros Hadj Haf Hbf. revert acc.
  induction todo as [|[s i] todo IH]; intros acc Hall.
  - now exists acc.
  - cbn [construct_loop]. unfold construct_one.
    destruct (Hall s i (or_introl eq_refl)) as [Hparse Hi].
    destruct (MolFromSmiles s) as [mol|]; [|contradiction].
    specialize (Hadj mol). specialize (Haf mol). specialize (Hbf mol).
    destruct (adjacency_edges mol); [|discriminate].
    destruct (af mol); [|discriminate].
    destruct (bf mol); [|discriminate].
    cbn [bind]. unfold getitem.
    destruct (nth_error target i) eqn:Hn;
      [|apply nth_error_None in Hn; lia].
    cbn [bind]. apply IH. intros s' i' H. apply Hall. now right.
Qed.

(** [DataSet(smiles=..., target=...)] is constructed, for pairwise distinct
    strings with as many targets, when the feature functions answer on
    every molecule. *)
Lemma DataSet_init_returns
      (smiles : list string) (target : list R) (global_features : GlobalFeat)
      (allowed_atoms atom_feature_list bond_feature_list : option (list string))
      (log : bool) (root : option string) :
  NoDup smiles ->
  List.length smiles = List.length target ->
  (forall mol, is_ok (adjacency_edges mol) = true) ->
  (forall a l mol, is_ok (AtomFeaturizer a l mol) = true) ->
  (forall l mol, is_ok (BondFeaturizer l mol) = true) ->
  exists ds,
    DataSet_init MolFromSmiles GetNumHeavyAtoms GetSymbols adjacency_edges
                 AtomFeaturizer BondFeaturizer pickle_load
                 None (Some smiles) (Some target) global_features allowed_atoms
                 atom_feature_list bond_feature_list log root = Ok ds.
Proof.
  intros Hnd Hlen Hadj Haf Hbf. unfold DataSet_init.
  rewrite (@filter_smiles_nodup Mol MolFromSmiles GetNumHeavyAtoms GetSymbols
             R smiles target allowed_atoms log Hnd Hlen).
  cbv zeta. cbn [bind].
  set (kept := filter _ (combine smiles target)).
  unfold construct_dataset.
  destruct (@construct_loop_returns
              (AtomFeaturizer allowed_atoms
                 (or_default atom_feature_list default_atom_feature_list))
              (BondFeaturizer
                 (or_default bond_feature_list default_bond_feature_list))
              (standardize (map snd kept))
              (combine (map fst kept) (seq 0 (List.length (map fst kept)))) [])
    as [data Hdata]; auto.
  - intros s i Hin. split.
    + apply in_combine_l in Hin. apply in_map_iff in Hin as ([s' t] & <- & Hk).
      apply filter_In in Hk as [_ Hk]. cbn [fst] in *.
      unfold keeps in Hk. destruct (MolFromSmiles s'); [discriminate|discriminate].
    + apply in_combine_r in Hin. apply in_seq in Hin.
      rewrite standardize_length, length_map.
      rewrite length_map in Hin. lia.
  - rewrite Hdata. cbn [bind]. eauto.
Qed.

(** C9: a [DataSet] built from strings and targets carries, graph by
    graph, the filtered targets minus their mean, divided by their standard
    deviation; when the filtered targets are not all equal that deviation
    is positive, and the carried targets have mean zero and standard
    deviation one. *)
Theorem DataSet_targets_standardized
        (smiles : list string) (target : list R) (global_features : GlobalFeat)
        (allowed_atoms atom_feature_list bond_feature_list : option (list string))
        (log : bool) (root : option string)
        (ds : DataSetObj NodeFeat EdgeIndex EdgeFeat GlobalFeat) :
  DataSet_init MolFromSmiles GetNumHeavyAtoms GetSymbols adjacency_edges
               AtomFeaturizer BondFeaturizer pickle_load
               None (Some smiles) (Some target) global_features allowed_atoms
               atom_feature_list bond_feature_list log root = Ok ds ->
  exists (fs : list string) (ft : list R),
    filter_smiles MolFromSmiles GetNumHeavyAtoms GetSymbols smiles target
                  allowed_atoms log = Ok (fs, ft)
    /\ ds_smiles ds = Some fs
    /\ map (@y _ _ _) (ds_data ds)
       = map (fun t => ((t - np_mean ft) / np_std ft)%R) ft
    /\ ((exists u v, In u ft /\ In v ft /\ u <> v) ->
        (0 < np_std ft)%R
        /\ np_mean (map (@y _ _ _) (ds_data ds)) = 0%R
        /\ np_std (map (@y _ _ _) (ds_data ds)) = 1%R).
Proof.
  unfold DataSet_init. intros H.
  destruct (filter_smiles _ _ _ smiles target allowed_atoms log)
    as [[fs ft]|] eqn:Hf; [|discriminate].
  cbn [bind] in H.
  destruct (construct_dataset _ _ _ _ fs (standardize ft) _ _ _)
    as [data|] eqn:Hc; [|discriminate].
  cbn [bind] in H. injection H as <-.
  exists fs, ft. cbn [ds_smiles ds_data].
  apply filter_smiles_lengths in Hf.
  apply construct_dataset_targets in Hc;
    [|now rewrite standardize_length].
  rewrite Hc. repeat split; try reflexivity.
  - destruct H as (u & v & Hu & Hv & Huv). exact (@np_std_pos _ _ _ Hu Hv Huv).
  - destruct H as (u & v & Hu & Hv & Huv).
    apply (@np_mean_standardize _ _ Hu).
    pose proof (@np_std_pos _ _ _ Hu Hv Huv). lra.
  - destruct H as (u & v & Hu & Hv & Huv).
    exact (@np_std_standardize _ _ _ Hu Hv Huv).
Qed.

End DataSetsFacts.

(** ** The small instance, run *)

Lemma toy_DataSet_init_ok :
  toy_DataSet_init None (Some toy_smiles) (Some toy_targets) tt
                   None None None false None
  = Ok toy_dataset.
Proof.
  unfold toy_DataSet_init, DataSet_init, toy_smiles, toy_targets, toy_dataset.
  cbn -[standardize IZR np_mean np_std]. reflexivity.
Qed.

Lemma split_frac_check_accepts_nonzero_sum_witness :
  (exists self,
      toy_DataSet_init None (Some toy_smiles) (Some toy_targets) tt
                       None None None false None = Ok self)
  /\ ~ (np_sumQ [1 # 2; 1 # 10; 1 # 10] == 0)%Q
  /\ ~ (np_sumQ [1 # 2; 1 # 10; 1 # 10] == 1)%Q
  /\ toy_MakeGraphDataSet_init None (Some toy_smiles) (Some toy_targets) tt
        None None None false None (Some [1 # 2; 1 # 10; 1 # 10]%Q) None false
     = Ok (mkMakeGraphDataSet toy_dataset None "random"
             [1 # 2; 1 # 10; 1 # 10]%Q None None None).
Proof.
  split; [exists toy_dataset; exact toy_DataSet_init_ok|].
  split; [vm_compute; discriminate|].
  split; [vm_compute; discriminate|].
  apply (@split_frac_check_accepts_nonzero_sum
           ToyMol toy_parse heavy symbols unit unit unit unit
           (fun _ => Ok tt) (fun _ _ _ => Ok tt) (fun _ _ => Ok tt)
           (fun _ : string => Raise (ValueError "no file"))
           (list ToyData)
           toy_splitter toy_splitter toy_splitter toy_splitter toy_splitter
           None (Some toy_smiles) (Some toy_targets) tt None None None
           None [1 # 2; 1 # 10; 1 # 10]%Q None false toy_dataset).
  - exact toy_DataSet_init_ok.
  - vm_compute; discriminate.
Defined.

Lemma split_binds_train_test_val_witness :
  exists obj,
    toy_MakeGraphDataSet_init None (Some toy_smiles) (Some toy_targets) tt
        None None None true (Some "consecutive")
        (Some [8 # 10; 1 # 10; 1 # 10]%Q) None false
    = Ok obj
    /\ base obj = toy_dataset
    /\ train obj = Some (PartSubset (firstn 1 (ds_data toy_dataset)))
    /\ test obj = Some (PartSubset (firstn 1 (skipn 1 (ds_data toy_dataset))))
    /\ val obj = Some (PartSubset (skipn 2 (ds_data toy_dataset))).
Proof.
  apply (@split_binds_train_test_val
           ToyMol toy_parse heavy symbols unit unit unit unit
           (fun _ => Ok tt) (fun _ _ _ => Ok tt) (fun _ _ => Ok tt)
           (fun _ : string => Raise (ValueError "no file"))
           (list ToyData)
           toy_splitter toy_splitter toy_splitter toy_splitter toy_splitter
           None (Some toy_smiles) (Some toy_targets) tt None None None
           "consecutive" (8 # 10)%Q (1 # 10)%Q (1 # 10)%Q [] None false
           toy_dataset toy_splitter).
  - exact toy_DataSet_init_ok.
  - vm_compute; discriminate.
  - reflexivity.
  - reflexivity.
  - reflexivity.
Defined.

Lemma DataSet_targets_standardized_witness :
  exists (fs : list string) (ft : list R),
    filter_smiles toy_parse heavy symbols toy_smiles toy_targets None false
    = Ok (fs, ft)
    /\ ds_smiles toy_dataset = Some fs
    /\ map (@y _ _ _) (ds_data toy_dataset)
       = map (fun t => ((t - np_mean ft) / np_std ft)%R) ft
    /\ ((exists u v, In u ft /\ In v ft /\ u <> v) ->
        (0 < np_std ft)%R
        /\ np_mean (map (@y _ _ _) (ds_data toy_dataset)) = 0%R
        /\ np_std (map (@y _ _ _) (ds_data toy_dataset)) = 1%R).
Proof.
  apply (@DataSet_targets_standardized
           ToyMol toy_parse heavy symbols unit unit unit unit
           (fun _ => Ok tt) (fun _ _ _ => Ok tt) (fun _ _ => Ok tt)
           (fun _ : string => Raise (ValueError "no file"))
           toy_smiles toy_targets tt None None None false None toy_dataset).
  exact toy_DataSet_init_ok.
Defined.

(** ** train_model *)

Example toy_train_early_stop :
  toy_train [5; 4; 4; 4; 3]%Z 10 true 2
  = ([Fin 5; Fin 4; Fin 4; Fin 4], [Fin 5; Fin 4; Fin 4; Fin 4]).
Proof. reflexivity. Qed.

Example toy_train_no_early_stop :
  toy_train [5; 4; 4; 4; 3]%Z 5 false 2
  = ([Fin 5; Fin 4; Fin 4; Fin 4; Fin 3], [Fin 5; Fin 4; Fin 4; Fin 4; Fin 3]).
Proof. reflexivity. Qed.

Section TrainModelFacts.

Variables Model Batch Loss : Type.
Variable train_batch : Model -> Batch -> Model * Loss.
Variable val_batch : Model -> Batch -> Model * Loss.
Variable train_data_loader : nat -> list Batch.
Variable val_data_loader : nat -> list Batch.
Variable loss_mean : list Loss -> Loss.
Variable ltb : Loss -> Loss -> bool.
Variable inf : Loss.

Let after :=
  state_after train_batch val_batch train_data_loader val_data_loader
              loss_mean ltb inf.
Let body :=
  epoch_body train_batch val_batch train_data_loader val_data_loader
             loss_mean ltb.
Let loop :=
  epochs_loop train_batch val_batch train_data_loader val_data_loader
              loss_mean ltb.
Let train_mean :=
  epoch_train_mean train_batch val_batch train_data_loader val_data_loader
                   loss_mean ltb inf.
Let val_mean :=
  epoch_val_mean train_batch val_batch train_data_loader val_data_loader
                 loss_mean ltb inf.
Let better :=
  improved train_batch val_batch train_data_loader val_data_loader
           loss_mean ltb inf.

(** What one epoch does to each field of the state. *)
Lemma epoch_body_fields (m : Model) (j : nat) :
  train_loss (after m (S j)) = train_loss (after m j) ++ [train_mean m j]
  /\ val_loss (after m (S j)) = val_loss (after m j) ++ [val_mean m j]
  /\ loss_cut (after m (S j))
     = (if better m j then val_mean m j else loss_cut (after m j))
  /\ counter (after m (S j))
     = (if better m j then 0%nat else S (counter (after m j))).
Proof.
  unfold after, train_mean, val_mean, better, improved,
    epoch_train_mean, epoch_val_mean.
  cbn [state_after].
  set (st := state_after train_batch val_batch train_data_loader
                         val_data_loader loss_mean ltb inf m j).
  unfold epoch_body.
  destruct (run_batches train_batch (model st) (train_data_loader j)) as [m1 temp].
  cbn [fst snd].
  destruct (run_batches val_batch m1 (val_data_loader j)) as [m2 temp2].
  cbn [snd].
  destruct (ltb (loss_mean temp2) _); cbn; repeat split; reflexivity.
Qed.

(** One mean training loss and one mean validation loss per epoch. *)
Lemma losses_after (m : Model) (k : nat) :
  train_loss (after m k) = map (train_mean m) (seq 0 k)
  /\ val_loss (after m k) = map (val_mean m) (seq 0 k).
Proof.
  induction k as [|k [IHt IHv]]; [split; reflexivity|].
  destruct (epoch_body_fields m k) as (Ht & Hv & _).
  rewrite Ht, Hv, IHt, IHv, seq_S, !map_app. split; reflexivity.
Qed.

(** The counter is the length of the run of epochs without strict
    improvement that ends at the last epoch. *)
Lemma counter_after (m : Model) (j : nat) :
  (counter (after m j) <= j)%nat
  /\ (forall i, (j - counter (after m j) <= i < j)%nat -> better m i = false)
  /\ ((counter (after m j) < j)%nat ->
      better m (j - counter (after m j) - 1) = true).
Proof.
  induction j as [|j (IHle & IHrun & IHlast)].
  - cbn. repeat split; intros; lia.
  - destruct (epoch_body_fields m j) as (_ & _ & _ & Hc).
    rewrite Hc. destruct (better m j) eqn:Hb.
    + repeat split; [lia|intros; lia|].
      intros _. now replace (S j - 0 - 1)%nat with j by lia.
    + repeat split; [lia| |].
      * intros i Hi. destruct (Nat.eq_dec i j) as [->|Hne]; [exact Hb|].
        apply IHrun. lia.
      * intros Hlt.
        replace (S j - S (counter (after m j)) - 1)%nat
          with (j - counter (after m j) - 1)%nat by lia.
        apply IHlast. lia.
Qed.

(** The loop from epoch [n] on, with [k] epochs to go: it leaves at the
    first epoch that hits the early-stopping test, or runs them all. *)
Lemma epochs_loop_spec (m : Model) (early_stopping : bool) (patience : Z)
      (k n : nat) :
  exists j,
    (j <= k)%nat
    /\ loop early_stopping patience (seq n k) (after m n) = after m (n + j)
    /\ (forall i, (0 < i < j)%nat ->
                  hit_early_stop early_stopping patience (after m (n + i)) = false)
    /\ ((j < k)%nat ->
        (0 < j)%nat
        /\ hit_early_stop early_stopping patience (after m (n + j)) = true).
Proof.
  revert n. induction k as [|k IH]; intros n.
  - exists 0%nat. rewrite Nat.add_0_r. repeat split; try lia.
  - cbn [seq]. unfold loop. cbn [epochs_loop]. fold loop. fold body.
    change (body n (after m n)) with (after m (S n)).
    destruct (hit_early_stop early_stopping patience (after m (S n))) eqn:Hhit.
    + exists 1%nat. rewrite Nat.add_1_r.
      repeat split; try lia; try assumption.
    + destruct (IH (S n)) as (j & Hle & Hrun & Hbefore & Hstop).
      exists (S j). rewrite <- Nat.add_succ_comm.
      repeat split; try lia; try assumption.
      * intros i Hi. destruct i as [|[|i]]; [lia| |].
        -- now rewrite Nat.add_1_r.
        -- replace (n + S (S i))%nat with (S n + S i)%nat by lia.
           apply Hbefore. lia.
      * apply Hstop. lia.
Qed.


Lemma hit_early_stop_iff (early_stopping : bool) (patience : Z)
      (st : TrainState Model Loss) :
  hit_early_stop early_stopping patience st = true
  <-> early_stopping = true /\ Z.of_nat (counter st) = patience.
Proof.
  unfold hit_early_stop. rewrite andb_true_iff, Z.eqb_eq. tauto.
Qed.

(** With early stopping off the loop runs every epoch. *)
Lemma train_model_all_epochs (m : Model) (epochs patience : Z) :
  train_model train_batch val_batch train_data_loader val_data_loader
              loss_mean ltb inf m epochs false patience
  = (map (train_mean m) (seq 0 (Z.to_nat epochs)),
     map (val_mean m) (seq 0 (Z.to_nat epochs))).
Proof.
  destruct (epochs_loop_spec m false patience (Z.to_nat epochs) 0)
    as (k & Hle & Hrun & _ & Hstop).
  assert (Hk : k = Z.to_nat epochs).
  { destruct (Nat.eq_dec k (Z.to_nat epochs)) as [|Hne]; [assumption|].
    destruct Hstop as [_ Hhit]; [lia|].
    apply hit_early_stop_iff in Hhit. destruct Hhit. discriminate. }
  subst k. cbn [Nat.add] in Hrun.
  destruct (losses_after m (Z.to_nat epochs)) as [Ht Hv].
  unfold train_model, train_model_state. fold loop.
  fold (after m 0) in Hrun |- *.
  change (train_init inf m) with (after m 0).
  rewrite Hrun, Ht, Hv. reflexivity.
Qed.


End TrainModelFacts.




(** ** pred_metric *)

Section PredMetricFacts.

Variable mean_squared_error : list Q -> list Q -> Q.
Variable mean_absolute_error : list Q -> list Q -> Q.
Variable r2_score : list Q -> list Q -> Q.

Local Open Scope Q_scope.

Lemma np_sumQ_cons (v : Q) (a : list Q) : np_sumQ (v :: a) = v + np_sumQ a.
Proof. reflexivity. Qed.

(** The sum [pred_metric] takes for 'mre', term by term over the pairs
    (prediction, target). *)
Lemma mre_terms (prediction target : list Q) :
  List.length prediction = List.length target ->
  np_sumQ (arr_div (arr_sub target prediction) target) * 100
  == np_sumQ (map (fun p => (snd p - fst p) / snd p * 100)
                  (combine prediction target)).
Proof.
  revert target.
  induction prediction as [|f prediction IH]; intros [|t target] Hlen;
    try discriminate.
  - reflexivity.
  - injection Hlen as Hlen. specialize (IH target Hlen).
    unfold arr_div, arr_sub in *. cbn [combine map fst snd].
    rewrite !np_sumQ_cons, <- IH. unfold Qdiv. ring.
Qed.

(** C8: asked for 'mre', [pred_metric] stores the sum of the relative
    errors times 100 with no division by the number of samples: N times
    the Mean Relative Error of its docstring. *)
Theorem pred_metric_mre_is_sum (prediction target : list Q) :
  List.length prediction = List.length target ->
  (0 < List.length target)%nat ->
  exists v : Q,
    pred_metric mean_squared_error mean_absolute_error r2_score
                prediction target (MetricStr "mre") = [("mre", v)]
    /\ v == inject_Z (Z.of_nat (List.length target))
            * mre_documented prediction target.
Proof.
  intros Hlen Hpos. eexists. split; [reflexivity|].
  rewrite (mre_terms _ _ Hlen). unfold mre_documented.
  set (S := np_sumQ _).
  field. intros H.
  unfold Qeq in H. cbn [Qnum Qden inject_Z] in H. lia.
Qed.

End PredMetricFacts.

Lemma pred_metric_mre_is_sum_witness :
  (exists v : Q,
      pred_metric (fun _ _ => 0) (fun _ _ => 0) (fun _ _ => 0)
                  [0; 0] [1; 1] (MetricStr "mre") = [("mre", v)]
      /\ v == 2 * mre_documented [0; 0] [1; 1])%Q
  /\ (mre_documented [0; 0] [1; 1] == 100)%Q
  /\ dict_lookup (pred_metric (fun _ _ => 0) (fun _ _ => 0) (fun _ _ => 0)
                              [0; 0] [1; 1] (MetricStr "mre"))%Q "mre"
     = Some (200 # 1)%Q.
Proof.
  split; [|split; reflexivity].
  apply (@pred_metric_mre_is_sum (fun _ _ => 0%Q) (fun _ _ => 0%Q) (fun _ _ => 0%Q)
           [0; 0]%Q [1; 1]%Q); [reflexivity|cbn; lia].
Defined.

(** ** CpLayer and GroupGAT_Ensemble *)

Section CpFacts.

Local Open Scope R_scope.

Lemma epsilon_pos : 0 < CpLayer.epsilon.
Proof. unfold CpLayer.epsilon. lra. Qed.

Lemma clamp_bounds (x lo hi : R) :
  lo <= hi -> lo <= CpLayer.clamp x lo hi <= hi.
Proof.
  intros H. unfold CpLayer.clamp, Rmin, Rmax.
  destruct (Rle_dec x lo); destruct (Rle_dec _ hi); lra.
Qed.

Lemma clamp_nonneg (x lo hi : R) :
  0 <= x -> 0 <= hi -> 0 <= CpLayer.clamp x lo hi.
Proof.
  intros Hx Hhi. unfold CpLayer.clamp, Rmin, Rmax.
  destruct (Rle_dec x lo); destruct (Rle_dec _ hi); lra.
Qed.

Lemma Rabs_clamp_20 (x : R) : Rabs (CpLayer.clamp x (-20) 20) <= 20.
Proof.
  apply Rabs_le. apply clamp_bounds. lra.
Qed.

(** The two ways of writing the guarded hyperbolic functions agree. *)
Lemma safe_sinh_spec (x : R) : CpLayer.safe_sinh x = CpLayer.sinh_spec x.
Proof.
  unfold CpLayer.safe_sinh, CpLayer.sinh_spec, CpLayer.clamp_max.
  destruct (Rle_dec (Rabs x) 20); destruct (Rlt_dec 20 (Rabs x)); lra.
Qed.

Lemma safe_cosh_spec (x : R) : CpLayer.safe_cosh x = CpLayer.cosh_spec x.
Proof.
  unfold CpLayer.safe_cosh, CpLayer.cosh_spec, CpLayer.clamp_max.
  destruct (Rle_dec (Rabs x) 20); destruct (Rlt_dec 20 (Rabs x)); lra.
Qed.

(** On a clamped argument the guard never fires. *)
Lemma safe_sinh_clamped (x : R) :
  CpLayer.safe_sinh (CpLayer.clamp x (-20) 20) = sinh (CpLayer.clamp x (-20) 20).
Proof.
  unfold CpLayer.safe_sinh. pose proof (Rabs_clamp_20 x).
  destruct (Rle_dec _ 20); [reflexivity|contradiction].
Qed.

Lemma cosh_ge_1 (x : R) : 1 <= cosh x.
Proof.
  unfold cosh.
  pose proof (exp_pos x) as Ha. pose proof (exp_pos (- x)) as Hb.
  assert (Hab : exp x * exp (- x) = 1).
  { rewrite <- exp_plus. replace (x + - x) with 0 by ring. apply exp_0. }
  set (a := exp x) in *. set (b := exp (- x)) in *.
  destruct (Rle_lt_dec 2 (a + b)) as [H|H]; [lra|].
  pose proof (Rle_0_sqr (a - b)) as Hsq. unfold Rsqr in Hsq.
  assert (Hlt : (a + b) * (a + b) < 2 * 2) by (apply Rmult_le_0_lt_compat; lra).
  nra.
Qed.




End CpFacts.

Lemma dict_lookup_set (V : Type) (d : list (string * V)) (k k' : string) (v : V) :
  dict_lookup (dict_set d k v) k'
  = if String.eqb k k' then Some v else dict_lookup d k'.
Proof.
  induction d as [|[k0 v0] d IH]; cbn.
  - reflexivity.
  - destruct (String.eqb k0 k) eqn:Hk0; cbn.
    + apply String.eqb_eq in Hk0. subst k0.
      destruct (String.eqb k k'); reflexivity.
    + destruct (String.eqb k0 k') eqn:Hk0'.
      * apply String.eqb_eq in Hk0'. subst k0.
        rewrite String.eqb_sym, Hk0. reflexivity.
      * exact IH.
Qed.

Section EnsembleFacts.

Variable Graph : Type.
Variable global_feats : Graph -> R.

Let step (data : Graph) :=
  fun (outputs : list (string * R)) (nm : string * (Graph -> R)) =>
    dict_set outputs (fst nm) (snd nm data).

Lemma run_models_other (models : list (string * (Graph -> R))) (data : Graph)
      (acc : list (string * R)) (k : string) :
  ~ In k (map fst models) ->
  dict_lookup (fold_left (step data) models acc) k = dict_lookup acc k.
Proof.
  revert acc. induction models as [|[k0 f0] models IH]; intros acc Hk.
  - reflexivity.
  - cbn [fold_left]. rewrite IH.
    + unfold step. cbn [fst snd]. rewrite dict_lookup_set.
      destruct (String.eqb k0 k) eqn:E; [|reflexivity].
      apply String.eqb_eq in E. subst. exfalso. apply Hk. now left.
    + intros H. apply Hk. now right.
Qed.

(** Each sub-model of the [ModuleDict] is run on the batch, and its
    output is stored under its name. *)
Lemma run_models_lookup (models : list (string * (Graph -> R))) (data : Graph)
      (acc : list (string * R)) (k : string) (f : Graph -> R) :
  NoDup (map fst models) -> In (k, f) models ->
  dict_lookup (fold_left (step data) models acc) k = Some (f data).
Proof.
  revert acc. induction models as [|[k0 f0] models IH]; intros acc Hnd Hin.
  - contradiction.
  - cbn [map fst] in Hnd. inversion Hnd as [|? ? Hnotin Hnd']. subst.
    cbn [fold_left]. destruct Hin as [Heq|Hin].
    + injection Heq as -> ->.
      rewrite run_models_other by exact Hnotin.
      unfold step. cbn [fst snd]. rewrite dict_lookup_set.
      now rewrite String.eqb_refl.
    + now apply IH.
Qed.

(** C3: [CpLayer.forward] computes the closed form of the specification,
    and [GroupGAT_Ensemble.forward] passes the outputs of the sub-models
    named A, B, C, D, E, in that order, with the temperature as last
    argument. *)
Theorem ensemble_forward_closed_form
        (models : list (string * (Graph -> R))) (data : Graph)
        (mA mB mC mD mE : Graph -> R) :
  NoDup (map fst models) ->
  In ("A", mA) models -> In ("B", mB) models -> In ("C", mC) models ->
  In ("D", mD) models -> In ("E", mE) models ->
  (forall B C D E F T : R,
      CpLayer.forward B C D E F T = CpLayer.Cp_spec B C D E F T)
  /\ GroupGAT_Ensemble.forward global_feats models data
     = Ok (CpLayer.forward (mA data) (mB data) (mC data) (mD data) (mE data)
                      (global_feats data)).
Proof.
  intros Hnd HA HB HC HD HE. split.
  - intros B C D E F T.
    unfold CpLayer.forward, CpLayer.Cp_spec, CpLayer.sinh_term,
      CpLayer.cosh_term, CpLayer.D_over_T, CpLayer.F_over_T,
      CpLayer.T_shifted, CpLayer.epsilon.
    cbv zeta. now rewrite safe_sinh_spec, safe_cosh_spec.
  - unfold GroupGAT_Ensemble.forward, GroupGAT_Ensemble.output,
      GroupGAT_Ensemble.run_models.
    fold (step data).
    rewrite (@run_models_lookup models data [] _ _ Hnd HA),
      (@run_models_lookup models data [] _ _ Hnd HB),
      (@run_models_lookup models data [] _ _ Hnd HC),
      (@run_models_lookup models data [] _ _ Hnd HD),
      (@run_models_lookup models data [] _ _ Hnd HE).
    reflexivity.
Qed.

End EnsembleFacts.

(** Five constant sub-models and a batch that is its temperature. *)
Lemma ensemble_forward_closed_form_witness :
  GroupGAT_Ensemble.forward (fun T : R => T)
    [("A", fun _ => 1%R); ("B", fun _ => 2%R); ("C", fun _ => 3%R);
     ("D", fun _ => 4%R); ("E", fun _ => 5%R)] 300%R
  = Ok (CpLayer.forward 1 2 3 4 5 300)
  /\ CpLayer.forward 1 2 3 4 5 300 = CpLayer.Cp_spec 1 2 3 4 5 300.
Proof.
  destruct (@ensemble_forward_closed_form R (fun T : R => T)
              [("A", fun _ => 1%R); ("B", fun _ => 2%R); ("C", fun _ => 3%R);
               ("D", fun _ => 4%R); ("E", fun _ => 5%R)] 300%R
              (fun _ => 1%R) (fun _ => 2%R) (fun _ => 3%R)
              (fun _ => 4%R) (fun _ => 5%R)) as [Hspec Hens].
  - cbn [map fst].
    repeat (constructor; [cbn [In]; intuition discriminate|]). constructor.
  - cbn [In]. auto.
  - cbn [In]. auto.
  - cbn [In]. auto.
  - cbn [In]. auto 6.
  - cbn [In]. auto 7.
  - split; [exact Hens|apply Hspec].
Defined.

Section CpDenominators.

Local Open Scope R_scope.



End CpDenominators.


(** * Part III: further properties of the code *)

(** ** filter_smiles: what comes out of it *)

Lemma combine_fst_snd (A B : Type) (l : list (A * B)) :
  combine (map fst l) (map snd l) = l.
Proof.
  induction l as [|[a b] l IH]; [reflexivity|]. cbn. now rewrite IH.
Qed.

Lemma map_fst_filter_combine (A B : Type) (f : A -> bool) (l : list A)
      (l' : list B) :
  List.length l = List.length l' ->
  map fst (filter (fun r => f (fst r)) (combine l l')) = filter f l.
Proof.
  revert l'. induction l as [|a l IH]; intros [|b l'] H; try discriminate;
    [reflexivity|].
  cbn. injection H as H. destruct (f a); cbn; now rewrite IH.
Qed.

Lemma filter_idem (A : Type) (f : A -> bool) (l : list A) :
  filter f (filter f l) = filter f l.
Proof.
  induction l as [|a l IH]; [reflexivity|].
  cbn. destruct (f a) eqn:E; cbn; [rewrite E|]; now rewrite IH.
Qed.

Lemma NoDup_filter (A : Type) (f : A -> bool) (l : list A) :
  NoDup l -> NoDup (filter f l).
Proof.
  induction 1 as [|a l Hin Hnd IH]; cbn; [constructor|].
  destruct (f a); [|exact IH]. constructor; [|exact IH].
  intros H. apply filter_In in H. tauto.
Qed.

Section FilterSmilesMore.

Variable Mol : Type.
Variable MolFromSmiles : string -> option Mol.
Variable GetNumHeavyAtoms : Mol -> nat.
Variable GetSymbols : Mol -> list string.
Variable T : Type.

Let run := filter_smiles MolFromSmiles GetNumHeavyAtoms GetSymbols (T := T).
Let keep := keeps MolFromSmiles GetNumHeavyAtoms GetSymbols.
Let stays := survives MolFromSmiles GetNumHeavyAtoms GetSymbols (T := T).

Lemma passing_rows_of_frame (f : string * T -> bool)
      (q : nat * (string * T) -> bool) (n : nat) (rows : list (string * T)) :
  filter f (map snd (filter (fun r => f (snd r) || q r) (enumerate_from n rows)))
  = filter f rows.
Proof.
  revert n. induction rows as [|r rows IH]; intros n; [reflexivity|].
  cbn [enumerate_from filter snd].
  destruct (f r) eqn:Hf; cbn [orb].
  - cbn [map filter snd]. rewrite Hf. f_equal. apply IH.
  - destruct (q (n, r)); cbn [map filter snd]; [rewrite Hf|]; apply IH.
Qed.

Lemma frame_rows_sub (f : nat * (string * T) -> bool) (n : nat)
      (rows : list (string * T)) (r : string * T) :
  In r (map snd (filter f (enumerate_from n rows))) -> In r rows.
Proof.
  revert n. induction rows as [|r0 rows IH]; intros n H; [contradiction|].
  cbn [enumerate_from filter] in H. destruct (f (n, r0)).
  - destruct H as [<-|H]; [now left|right; now apply IH with (S n)].
  - right. now apply IH with (S n).
Qed.

(** X1: [filter_smiles] returns exactly when it is given as many targets
    as strings; otherwise the frame cannot be built. *)
Theorem filter_smiles_returns_iff_aligned
        (smiles : list string) (target : list T)
        (allowed_atoms : option (list string)) (print_out : bool) :
  is_ok (run smiles target allowed_atoms print_out)
  = Nat.eqb (List.length smiles) (List.length target).
Proof.
  destruct (Nat.eqb_spec (List.length smiles) (List.length target)) as [Hlen|Hne].
  - unfold run.
    now rewrite (@filter_smiles_rows Mol MolFromSmiles GetNumHeavyAtoms
                   GetSymbols T smiles target allowed_atoms print_out Hlen).
  - unfold run, filter_smiles, mk_frame.
    apply Nat.eqb_neq in Hne. now rewrite Hne.
Qed.

(** X2: no pair whose string passes the three conditions is ever lost, and
    nothing is made up: the passing pairs of the output are the passing
    pairs of the input, in order and with their own targets, the two
    output lists have one length, and every output pair is an input pair. *)
Theorem filter_smiles_passing_pairs_kept
        (smiles : list string) (target : list T)
        (allowed_atoms : option (list string)) (print_out : bool) :
  List.length smiles = List.length target ->
  exists (fs : list string) (ft : list T),
    run smiles target allowed_atoms print_out = Ok (fs, ft)
    /\ List.length fs = List.length ft
    /\ filter (fun r => keep (or_default allowed_atoms default_allowed_atoms)
                             (fst r)) (combine fs ft)
       = filter (fun r => keep (or_default allowed_atoms default_allowed_atoms)
                               (fst r)) (combine smiles target)
    /\ forall r, In r (combine fs ft) -> In r (combine smiles target).
Proof.
  intros Hlen. unfold run.
  rewrite (@filter_smiles_rows Mol MolFromSmiles GetNumHeavyAtoms
             GetSymbols T smiles target allowed_atoms print_out Hlen).
  cbv zeta. fold stays.
  set (allowed := or_default allowed_atoms default_allowed_atoms).
  set (kept := filter (stays allowed smiles) _).
  exists (col_smiles kept), (col_target kept).
  assert (Hrows : combine (col_smiles kept) (col_target kept) = map snd kept).
  { unfold col_smiles, col_target.
    rewrite <- (map_map snd fst), <- (map_map snd snd). apply combine_fst_snd. }
  split; [reflexivity|]. split.
  - unfold col_smiles, col_target. now rewrite !length_map.
  - rewrite Hrows. split.
    + exact (passing_rows_of_frame
               (fun r => keep allowed (fst r))
               (fun r => negb (first_at smiles (fst r) (fst (snd r))))
               0 (combine smiles target)).
    + intros r. apply frame_rows_sub.
Qed.

(** X3: on pairwise distinct strings the filter is exact: the strings
    returned are those that pass, each of them passes, they are still
    pairwise distinct, and each keeps its own target. *)
Theorem filter_smiles_distinct_exact
        (smiles : list string) (target : list T)
        (allowed_atoms : option (list string)) (print_out : bool) :
  NoDup smiles ->
  List.length smiles = List.length target ->
  exists (fs : list string) (ft : list T),
    run smiles target allowed_atoms print_out = Ok (fs, ft)
    /\ fs = filter (keep (or_default allowed_atoms default_allowed_atoms)) smiles
    /\ Forall (fun s => keep (or_default allowed_atoms default_allowed_atoms) s
                        = true) fs
    /\ NoDup fs
    /\ combine fs ft
       = filter (fun r => keep (or_default allowed_atoms default_allowed_atoms)
                               (fst r)) (combine smiles target).
Proof.
  intros Hnd Hlen. unfold run.
  rewrite (@filter_smiles_nodup Mol MolFromSmiles GetNumHeavyAtoms
             GetSymbols T smiles target allowed_atoms print_out Hnd Hlen).
  cbv zeta. fold keep.
  set (allowed := or_default allowed_atoms default_allowed_atoms).
  set (kept := filter _ (combine smiles target)).
  exists (map fst kept), (map snd kept).
  assert (Hfs : map fst kept = filter (keep allowed) smiles)
    by (apply map_fst_filter_combine; exact Hlen).
  split; [reflexivity|]. split; [exact Hfs|]. split; [|split].
  - rewrite Hfs. apply Forall_forall. intros s Hs.
    apply filter_In in Hs. tauto.
  - rewrite Hfs. now apply NoDup_filter.
  - apply combine_fst_snd.
Qed.

(** X4: on pairwise distinct strings filtering twice is filtering once. *)
Theorem filter_smiles_idempotent_distinct
        (smiles : list string) (target : list T)
        (allowed_atoms : option (list string)) (print_out : bool)
        (fs : list string) (ft : list T) :
  NoDup smiles ->
  List.length smiles = List.length target ->
  run smiles target allowed_atoms print_out = Ok (fs, ft) ->
  run fs ft allowed_atoms print_out = Ok (fs, ft).
Proof.
  intros Hnd Hlen. unfold run.
  rewrite (@filter_smiles_nodup Mol MolFromSmiles GetNumHeavyAtoms
             GetSymbols T smiles target allowed_atoms print_out Hnd Hlen).
  cbv zeta. fold keep.
  set (allowed := or_default allowed_atoms default_allowed_atoms).
  set (kept := filter _ (combine smiles target)).
  intros H. injection H as <- <-.
  assert (Hfs : map fst kept = filter (keep allowed) smiles)
    by (apply map_fst_filter_combine; exact Hlen).
  assert (Hnd' : NoDup (map fst kept))
    by (rewrite Hfs; now apply NoDup_filter).
  assert (Hlen' : List.length (map fst kept) = List.length (map snd kept))
    by now rewrite !length_map.
  rewrite (@filter_smiles_nodup Mol MolFromSmiles GetNumHeavyAtoms
             GetSymbols T (map fst kept) (map snd kept) allowed_atoms
             print_out Hnd' Hlen').
  cbv zeta. fold keep. fold allowed.
  rewrite combine_fst_snd. unfold kept. now rewrite filter_idem.
Qed.

End FilterSmilesMore.

Section FilterSmilesVersions.

Variable Mol : Type.
Variable MolFromSmiles : string -> option Mol.
Variable GetNumHeavyAtoms : Mol -> nat.
Variable GetSymbols : Mol -> list string.

Let keep := keeps MolFromSmiles GetNumHeavyAtoms GetSymbols.

(** The strings that survive, read off the strings alone. *)
Lemma survivor_strings (U : Type) (allowed smiles0 : list string) (n : nat)
      (smiles : list string) (target : list U) :
  List.length smiles = List.length target ->
  col_smiles
    (filter (survives MolFromSmiles GetNumHeavyAtoms GetSymbols allowed smiles0)
            (enumerate_from n (combine smiles target)))
  = map snd
        (filter (fun p => keep allowed (snd p)
                          || negb (first_at smiles0 (fst p) (snd p)))
                (enumerate_from n smiles)).
Proof.
  revert n target.
  induction smiles as [|s smiles IH]; intros n [|t target] Hlen;
    try discriminate; [reflexivity|].
  injection Hlen as Hlen.
  cbn [combine enumerate_from filter]. unfold survives at 1.
  cbn [fst snd]. fold keep.
  destruct (keep allowed s || negb (first_at smiles0 n s));
    cbn [col_smiles map fst snd]; [f_equal|]; now apply IH.
Qed.

Lemma pair_with_unit (smiles : list string) :
  map (fun s => (s, tt)) smiles
  = combine smiles (repeat tt (List.length smiles)).
Proof.
  induction smiles as [|s smiles IH]; [reflexivity|]. cbn. now rewrite IH.
Qed.

(** X5: the two versions of [filter_smiles] agree on the strings: the
    earlier one of data_load.py returns the first list that the one of
    data.py returns, whatever targets that one is given. *)
Theorem data_load_filter_agrees (T : Type) (smiles : list string)
        (target : list T) (allowed : option (list string)) (print_out : bool)
        (fs : list string) (ft : list T) :
  filter_smiles MolFromSmiles GetNumHeavyAtoms GetSymbols
                smiles target allowed print_out = Ok (fs, ft) ->
  DataLoad.filter_smiles MolFromSmiles GetNumHeavyAtoms GetSymbols smiles allowed
  = Ok fs.
Proof.
  intros H.
  assert (Hlen : List.length smiles = List.length target).
  { destruct (Nat.eqb_spec (List.length smiles) (List.length target));
      [assumption|].
    unfold filter_smiles, mk_frame in H.
    destruct (Nat.eqb _ _) eqn:E; [|discriminate].
    now apply Nat.eqb_eq in E. }
  rewrite (@filter_smiles_rows Mol MolFromSmiles GetNumHeavyAtoms
             GetSymbols T smiles target allowed print_out Hlen) in H.
  cbv zeta in H. injection H as <- _.
  assert (Hlen1 : List.length smiles
                  = List.length (repeat tt (List.length smiles)))
    by now rewrite repeat_length.
  pose proof (@filter_smiles_rows Mol MolFromSmiles GetNumHeavyAtoms
                GetSymbols unit smiles (repeat tt (List.length smiles))
                allowed false Hlen1) as H1.
  unfold filter_smiles, mk_frame in H1.
  rewrite <- Hlen1, Nat.eqb_refl in H1. cbn [bind] in H1. cbv zeta in H1.
  unfold DataLoad.filter_smiles. rewrite pair_with_unit.
  destruct (filter_loop _ _ _ _ _ _ _) as [idx|]; [|discriminate].
  cbn [bind] in *.
  destruct (df_drop idx _) as [df'|]; [|discriminate].
  cbn [bind] in *. injection H1 as H1 _. rewrite H1.
  rewrite (survivor_strings _ _ _ _ _ Hlen).
  now rewrite (survivor_strings _ _ _ _ _ Hlen1).
Qed.

End FilterSmilesVersions.

Lemma filter_smiles_passing_pairs_kept_witness :
  exists (fs : list string) (ft : list Z),
    toy_filter ["C"; "CC"; "C"; "CC"] [1; 2; 3; 4]%Z = Ok (fs, ft)
    /\ List.length fs = List.length ft
    /\ filter (fun r => keeps toy_parse heavy symbols default_allowed_atoms (fst r))
              (combine fs ft)
       = [("CC", 2%Z); ("CC", 4%Z)]
    /\ forall r, In r (combine fs ft) ->
                 In r (combine ["C"; "CC"; "C"; "CC"] [1; 2; 3; 4]%Z).
Proof.
  apply (@filter_smiles_passing_pairs_kept ToyMol toy_parse heavy symbols Z
           ["C"; "CC"; "C"; "CC"] [1; 2; 3; 4]%Z None false).
  reflexivity.
Defined.

Lemma filter_smiles_distinct_exact_witness :
  exists (fs : list string) (ft : list Z),
    toy_filter ["CC"; "C"; "C[Na]"; "("] [1; 2; 3; 4]%Z = Ok (fs, ft)
    /\ fs = ["CC"]
    /\ Forall (fun s => keeps toy_parse heavy symbols default_allowed_atoms s
                        = true) fs
    /\ NoDup fs
    /\ combine fs ft = [("CC", 1%Z)].
Proof.
  apply (@filter_smiles_distinct_exact ToyMol toy_parse heavy symbols Z
           ["CC"; "C"; "C[Na]"; "("] [1; 2; 3; 4]%Z None false).
  - repeat (constructor; [cbn [In]; intuition discriminate|]). constructor.
  - reflexivity.
Defined.

Lemma filter_smiles_idempotent_distinct_witness :
  toy_filter ["CC"] [1]%Z = Ok (["CC"], [1]%Z).
Proof.
  apply (@filter_smiles_idempotent_distinct ToyMol toy_parse heavy symbols Z
           ["CC"; "C"; "C[Na]"; "("] [1; 2; 3; 4]%Z None false ["CC"] [1]%Z).
  - repeat (constructor; [cbn [In]; intuition discriminate|]). constructor.
  - reflexivity.
  - reflexivity.
Defined.

Lemma data_load_filter_agrees_witness :
  DataLoad.filter_smiles toy_parse heavy symbols ["C"; "CC"; "C"; "CC"] None
  = Ok ["CC"; "C"; "CC"].
Proof.
  apply (@data_load_filter_agrees ToyMol toy_parse heavy symbols Z
           ["C"; "CC"; "C"; "CC"] [1; 2; 3; 4]%Z None false
           ["CC"; "C"; "CC"] [2; 3; 4]%Z).
  reflexivity.
Defined.

(** ** construct_dataset and DataSet *)

Lemma skipn_nth_error (A : Type) (l : list A) (k : nat) (a : A) :
  nth_error l k = Some a -> skipn k l = a :: skipn (S k) l.
Proof.
  revert l. induction k as [|k IH]; intros [|b l] H; try discriminate.
  - cbn in H. injection H as ->. reflexivity.
  - cbn in H. cbn [skipn]. rewrite (IH l H). reflexivity.
Qed.

Lemma map_Some_seq (A : Type) (target ys : list A) (k n : nat) :
  map Some ys = map (nth_error target) (seq k n) ->
  ys = firstn n (skipn k target) /\ List.length ys = n.
Proof.
  revert ys k. induction n as [|n IH]; intros ys k H.
  - destruct ys; [now split|discriminate].
  - destruct ys as [|y0 ys]; [discriminate|].
    cbn [seq map] in H. injection H as Hy H.
    destruct (IH ys (S k) H) as [Hys Hlen].
    rewrite (skipn_nth_error target k (eq_sym Hy)). cbn [firstn List.length].
    split; [now rewrite <- Hys|now rewrite Hlen].
Qed.

Lemma map_fst_combine (A B : Type) (l : list A) (l' : list B) :
  List.length l = List.length l' -> map fst (combine l l') = l.
Proof.
  revert l'. induction l as [|a l IH]; intros [|b l'] H; try discriminate.
  - reflexivity.
  - cbn. f_equal. apply IH. now injection H.
Qed.

Lemma nth_error_combine_both (A B : Type) (l : list A) (l' : list B) (i : nat)
      (a : A) (b : B) :
  nth_error l i = Some a -> nth_error l' i = Some b ->
  nth_error (combine l l') i = Some (a, b).
Proof.
  revert l l'. induction i as [|i IH]; intros [|x l] [|y l'] Ha Hb;
    try discriminate.
  - cbn in *. injection Ha as ->. injection Hb as ->. reflexivity.
  - cbn in *. now apply IH.
Qed.

Lemma frame_In (A : Type) (n j : nat) (rows : list A) (r : A) :
  nth_error rows j = Some r -> In ((n + j)%nat, r) (enumerate_from n rows).
Proof.
  revert n j. induction rows as [|r0 rows IH]; intros n [|j] H; try discriminate.
  - cbn in H. injection H as ->. rewrite Nat.add_0_r. now left.
  - cbn in H. right. rewrite <- Nat.add_succ_comm. now apply IH.
Qed.

(** [index] answers the first position: none after any occurrence. *)
Lemma list_index_first (x : string) (l : list string) (i : nat) :
  nth_error l i = Some x ->
  exists i', list_index x l = Ok i' /\ (i' <= i)%nat.
Proof.
  revert i. induction l as [|y l IH]; intros [|i] H; try discriminate.
  - cbn in H. injection H as ->. cbn. rewrite String.eqb_refl.
    exists 0%nat. split; [reflexivity|lia].
  - cbn in H. cbn. destruct (String.eqb y x).
    + exists 0%nat. split; [reflexivity|lia].
    + destruct (IH i H) as (i' & Hi' & Hle). rewrite Hi'.
      exists (S i'). split; [reflexivity|lia].
Qed.

Lemma py_getitem_nonneg (A : Type) (l : list A) (i : nat) :
  (i < List.length l)%nat -> py_getitem l (Z.of_nat i) = getitem l i.
Proof.
  intros H. unfold py_getitem. cbv zeta.
  destruct (Z.leb_spec 0 (Z.of_nat i)); [|lia].
  destruct (Z.ltb_spec (Z.of_nat i) (Z.of_nat (List.length l))); [|lia].
  cbn [andb]. now rewrite Nat2Z.id.
Qed.

Lemma py_getitem_negative (A : Type) (l : list A) (i : nat) :
  (i < List.length l)%nat ->
  py_getitem l (Z.of_nat i - Z.of_nat (List.length l)) = getitem l i.
Proof.
  intros H. unfold py_getitem. cbv zeta.
  set (n := Z.of_nat (List.length l)).
  destruct (Z.leb_spec 0 (Z.of_nat i - n)); [lia|]. cbn [andb].
  destruct (Z.leb_spec (- n) (Z.of_nat i - n)); [|lia].
  destruct (Z.ltb_spec (Z.of_nat i - n) 0); [|lia].
  cbn [andb]. replace (n + (Z.of_nat i - n))%Z with (Z.of_nat i) by lia.
  now rewrite Nat2Z.id.
Qed.

Lemma py_getitem_out_of_range (A : Type) (l : list A) (z : Z) :
  (z < - Z.of_nat (List.length l) \/ Z.of_nat (List.length l) <= z)%Z ->
  py_getitem l z = Raise IndexError.
Proof.
  intros H. unfold py_getitem. cbv zeta.
  set (n := Z.of_nat (List.length l)) in *.
  assert (0 <= n)%Z by (unfold n; lia).
  destruct (Z.leb_spec 0 z); destruct (Z.ltb_spec z n);
    destruct (Z.leb_spec (- n) z); destruct (Z.ltb_spec z 0);
    cbn [andb]; try reflexivity; lia.
Qed.

Section DataSetsMore.

Variable Mol : Type.
Variable MolFromSmiles : string -> option Mol.
Variable GetNumHeavyAtoms : Mol -> nat.
Variable GetSymbols : Mol -> list string.
Variables NodeFeat EdgeIndex EdgeFeat GlobalFeat : Type.
Variable adjacency_edges : Mol -> result EdgeIndex.
Variable AtomFeaturizer : option (list string) -> list string -> Mol -> result NodeFeat.
Variable BondFeaturizer : list string -> Mol -> result EdgeFeat.
Variable pickle_load : string -> result (list (Data NodeFeat EdgeIndex EdgeFeat)).

Let construct :=
  construct_dataset MolFromSmiles adjacency_edges AtomFeaturizer BondFeaturizer.
Let dataset :=
  DataSet_init MolFromSmiles GetNumHeavyAtoms GetSymbols adjacency_edges
               AtomFeaturizer BondFeaturizer pickle_load (GlobalFeat := GlobalFeat).
Let keep := keeps MolFromSmiles GetNumHeavyAtoms GetSymbols.

Lemma construct_loop_parses
      (af : Mol -> result NodeFeat) (bf : Mol -> result EdgeFeat)
      (target : list R) (todo : list (string * nat))
      (acc data : list (Data NodeFeat EdgeIndex EdgeFeat)) :
  construct_loop MolFromSmiles adjacency_edges af bf target todo acc = Ok data ->
  Forall (fun s => MolFromSmiles s <> None) (map fst todo).
Proof.
  revert acc. induction todo as [|[s i] todo IH]; intros acc H; [constructor|].
  cbn [construct_loop] in H.
  destruct (construct_one MolFromSmiles adjacency_edges af bf target s i)
    as [d|] eqn:Hone; [|discriminate].
  cbn [bind] in H. cbn [map fst]. constructor; [|now apply IH with (acc ++ [d])].
  unfold construct_one in Hone.
  destruct (MolFromSmiles s); [discriminate|discriminate].
Qed.

(** X6: when [construct_dataset] returns, it returns one graph per string,
    in order, the i-th carrying [target[i]]; every string parsed, and there
    were targets enough. *)
Theorem construct_dataset_shape (smiles : list string) (target : list R)
        (allowed_atoms afl bfl : option (list string))
        (data : list (Data NodeFeat EdgeIndex EdgeFeat)) :
  construct smiles target allowed_atoms afl bfl = Ok data ->
  List.length data = List.length smiles
  /\ (List.length smiles <= List.length target)%nat
  /\ map (@y _ _ _) data = firstn (List.length smiles) target
  /\ Forall (fun s => MolFromSmiles s <> None) smiles.
Proof.
  unfold construct, construct_dataset. intros H.
  pose proof (construct_loop_parses _ _ _ _ _ H) as Hp.
  rewrite map_fst_combine in Hp by now rewrite length_seq.
  apply construct_loop_targets in H. cbn [map app] in H.
  rewrite <- (map_map snd (nth_error target)) in H.
  rewrite map_snd_combine in H by now rewrite length_seq.
  apply map_Some_seq in H as [Hys Hlen]. cbn [skipn] in Hys.
  rewrite length_map in Hlen.
  split; [exact Hlen|]. split; [|split; [exact Hys|exact Hp]].
  rewrite <- Hlen, <- (length_map (@y _ _ _) data), Hys, length_firstn. lia.
Qed.

(** X7: [construct_dataset] does return when every string parses, there is
    a target for each, and the feature functions answer on every molecule. *)
Theorem construct_dataset_returns (smiles : list string) (target : list R)
        (allowed_atoms afl bfl : option (list string)) :
  (forall mol, is_ok (adjacency_edges mol) = true) ->
  (forall a l mol, is_ok (AtomFeaturizer a l mol) = true) ->
  (forall l mol, is_ok (BondFeaturizer l mol) = true) ->
  Forall (fun s => MolFromSmiles s <> None) smiles ->
  (List.length smiles <= List.length target)%nat ->
  exists data, construct smiles target allowed_atoms afl bfl = Ok data.
Proof.
  intros Hadj Haf Hbf Hp Hlen. unfold construct, construct_dataset.
  apply construct_loop_returns; auto.
  intros s i Hin. split.
  - apply in_combine_l in Hin.
    now apply (proj1 (Forall_forall _ smiles) Hp).
  - apply in_combine_r in Hin. apply in_seq in Hin. lia.
Qed.

(** X8: a string that does not parse and is given twice brings the whole
    [DataSet] down: its second copy survives the filter, and
    [construct_dataset] fails on it. *)
Theorem DataSet_repeated_unparsable_fails
        (smiles : list string) (target : list R) (global_features : GlobalFeat)
        (allowed_atoms atom_feature_list bond_feature_list : option (list string))
        (log : bool) (root : option string) (s : string) (i j : nat) :
  List.length smiles = List.length target ->
  (i < j)%nat ->
  nth_error smiles i = Some s ->
  nth_error smiles j = Some s ->
  MolFromSmiles s = None ->
  is_ok (dataset None (Some smiles) (Some target) global_features allowed_atoms
                 atom_feature_list bond_feature_list log root) = false.
Proof.
  intros Hlen Hij Hi Hj Hs. unfold dataset, DataSet_init.
  rewrite (@filter_smiles_rows Mol MolFromSmiles GetNumHeavyAtoms GetSymbols
             R smiles target allowed_atoms log Hlen).
  cbv zeta. cbn [bind].
  set (allowed := or_default allowed_atoms default_allowed_atoms).
  set (kept := filter _ (enumerate_from 0 (combine smiles target))).
  destruct (construct_dataset _ _ _ _ (col_smiles kept) _ _ _ _)
    as [data|] eqn:Hc; [exfalso|reflexivity].
  fold construct in Hc. apply construct_dataset_shape in Hc as (_ & _ & _ & Hp).
  assert (Hin : In s (col_smiles kept)).
  { destruct (nth_error target j) as [tj|] eqn:Htj.
    2:{ apply nth_error_None in Htj.
        assert (j < List.length smiles)%nat
          by (apply nth_error_Some; now rewrite Hj).
        lia. }
    apply in_map_iff. exists (j, (s, tj)). split; [reflexivity|].
    apply filter_In. split.
    - apply (frame_In 0). now apply nth_error_combine_both.
    - unfold survives, first_at, keeps. cbn [fst snd]. rewrite Hs.
      destruct (list_index_first _ _ Hi) as (i' & Hi' & Hle).
      rewrite Hi'. destruct (Nat.eqb_spec i' j); [lia|reflexivity]. }
  apply (proj1 (Forall_forall _ _) Hp) in Hin. contradiction.
Qed.

(** X9: on pairwise distinct strings, with a target for each and feature
    functions that answer, the [DataSet] is constructed and holds one graph
    per string that passes the filter. *)
Theorem DataSet_on_distinct_strings
        (smiles : list string) (target : list R) (global_features : GlobalFeat)
        (allowed_atoms atom_feature_list bond_feature_list : option (list string))
        (log : bool) (root : option string) :
  NoDup smiles ->
  List.length smiles = List.length target ->
  (forall mol, is_ok (adjacency_edges mol) = true) ->
  (forall a l mol, is_ok (AtomFeaturizer a l mol) = true) ->
  (forall l mol, is_ok (BondFeaturizer l mol) = true) ->
  exists ds,
    dataset None (Some smiles) (Some target) global_features allowed_atoms
            atom_feature_list bond_feature_list log root = Ok ds
    /\ ds_smiles ds
       = Some (filter (keep (or_default allowed_atoms default_allowed_atoms))
                      smiles)
    /\ DataSet_len ds
       = List.length
           (filter (keep (or_default allowed_atoms default_allowed_atoms)) smiles).
Proof.
  intros Hnd Hlen Hadj Haf Hbf.
  destruct (@DataSet_init_returns Mol MolFromSmiles GetNumHeavyAtoms GetSymbols
              NodeFeat EdgeIndex EdgeFeat GlobalFeat adjacency_edges
              AtomFeaturizer BondFeaturizer pickle_load smiles target
              global_features allowed_atoms atom_feature_list bond_feature_list
              log root Hnd Hlen Hadj Haf Hbf) as [ds Hds].
  exists ds. split; [exact Hds|].
  unfold DataSet_init in Hds.
  rewrite (@filter_smiles_nodup Mol MolFromSmiles GetNumHeavyAtoms GetSymbols
             R smiles target allowed_atoms log Hnd Hlen) in Hds.
  cbv zeta in Hds. cbn [bind] in Hds. fold keep in Hds.
  set (allowed := or_default allowed_atoms default_allowed_atoms) in *.
  destruct (construct_dataset _ _ _ _ _ _ _ _ _) as [data|] eqn:Hc;
    [|discriminate].
  cbn [bind] in Hds. injection Hds as <-.
  fold construct in Hc. apply construct_dataset_shape in Hc as (Hl & _).
  unfold DataSet_len. cbn [ds_smiles ds_data].
  rewrite Hl, map_fst_filter_combine by exact Hlen. now split.
Qed.

(** X10: [len] and indexing of a [DataSet] built from strings: it has as
    many graphs as filtered strings; the graph at index i, and likewise at
    i - len, carries the i-th standardized target; an index outside
    -len .. len - 1 is refused. *)
Theorem DataSet_len_getitem
        (smiles : list string) (target : list R) (global_features : GlobalFeat)
        (allowed_atoms atom_feature_list bond_feature_list : option (list string))
        (log : bool) (root : option string)
        (ds : DataSetObj NodeFeat EdgeIndex EdgeFeat GlobalFeat) :
  dataset None (Some smiles) (Some target) global_features allowed_atoms
          atom_feature_list bond_feature_list log root = Ok ds ->
  exists (fs : list string) (st : list R),
    ds_smiles ds = Some fs /\ ds_target ds = Some st
    /\ DataSet_len ds = List.length fs
    /\ (forall i, (i < List.length fs)%nat ->
          exists d,
            DataSet_getitem ds (Z.of_nat i) = Ok d
            /\ DataSet_getitem ds (Z.of_nat i - Z.of_nat (DataSet_len ds)) = Ok d
            /\ nth_error st i = Some (y d))
    /\ (forall z, (z < - Z.of_nat (DataSet_len ds)
                   \/ Z.of_nat (DataSet_len ds) <= z)%Z ->
          DataSet_getitem ds z = Raise IndexError).
Proof.
  unfold dataset, DataSet_init. intros H.
  destruct (filter_smiles _ _ _ smiles target allowed_atoms log)
    as [[fs ft]|] eqn:Hf; [|discriminate].
  cbn [bind] in H.
  destruct (construct_dataset _ _ _ _ fs (standardize ft) _ _ _)
    as [data|] eqn:Hc; [|discriminate].
  cbn [bind] in H. injection H as <-.
  fold construct in Hc. apply construct_dataset_shape in Hc as (Hl & Hle & Hy & _).
  apply filter_smiles_lengths in Hf.
  rewrite firstn_all2 in Hy by (rewrite standardize_length; lia).
  exists fs, (standardize ft). unfold DataSet_len, DataSet_getitem.
  cbn [ds_smiles ds_target ds_data].
  split; [reflexivity|]. split; [reflexivity|]. split; [exact Hl|]. split.
  - intros i Hi. rewrite <- Hl in Hi.
    rewrite py_getitem_nonneg, py_getitem_negative by exact Hi.
    unfold getitem. destruct (nth_error data i) as [d|] eqn:Hd.
    + exists d. split; [reflexivity|]. split; [reflexivity|].
      rewrite <- Hy, nth_error_map, Hd. reflexivity.
    + apply nth_error_None in Hd. lia.
  - intros z Hz. now apply py_getitem_out_of_range.
Qed.

End DataSetsMore.

Lemma construct_dataset_shape_witness :
  List.length [mkData tt tt tt 1%R; mkData tt tt tt 2%R]
  = List.length ["CC"; "CC"]
  /\ (List.length ["CC"; "CC"] <= List.length [1; 2; 3]%R)%nat
  /\ map (@y _ _ _) [mkData tt tt tt 1%R; mkData tt tt tt 2%R]
     = firstn (List.length ["CC"; "CC"]) [1; 2; 3]%R
  /\ Forall (fun s => toy_parse s <> None) ["CC"; "CC"].
Proof.
  apply (@construct_dataset_shape ToyMol toy_parse unit unit unit
           (fun _ => Ok tt) (fun _ _ _ => Ok tt) (fun _ _ => Ok tt)
           ["CC"; "CC"] [1; 2; 3]%R None None None
           [mkData tt tt tt 1%R; mkData tt tt tt 2%R]).
  reflexivity.
Defined.

Lemma construct_dataset_returns_witness :
  exists data, toy_construct ["CC"; "CC"] [1; 2; 3]%R None None None = Ok data.
Proof.
  apply (@construct_dataset_returns ToyMol toy_parse unit unit unit
           (fun _ => Ok tt) (fun _ _ _ => Ok tt) (fun _ _ => Ok tt)
           ["CC"; "CC"] [1; 2; 3]%R None None None).
  - reflexivity.
  - reflexivity.
  - reflexivity.
  - repeat constructor; discriminate.
  - cbn. lia.
Defined.

Lemma DataSet_repeated_unparsable_fails_witness :
  is_ok (toy_DataSet_init None (Some ["("; "CC"; "("]) (Some [1; 2; 3]%R) tt
                          None None None false None) = false.
Proof.
  apply (@DataSet_repeated_unparsable_fails ToyMol toy_parse heavy symbols
           unit unit unit unit
           (fun _ => Ok tt) (fun _ _ _ => Ok tt) (fun _ _ => Ok tt)
           (fun _ : string => Raise (ValueError "no file"))
           ["("; "CC"; "("] [1; 2; 3]%R tt None None None false None
           "(" 0%nat 2%nat).
  - reflexivity.
  - lia.
  - reflexivity.
  - reflexivity.
  - reflexivity.
Defined.

Lemma DataSet_on_distinct_strings_witness :
  exists ds,
    toy_DataSet_init None (Some ["CC"; "C"; "C[Na]"]) (Some [1; 5; 3]%R) tt
                     None None None false None = Ok ds
    /\ ds_smiles ds = Some ["CC"]
    /\ DataSet_len ds = 1%nat.
Proof.
  apply (@DataSet_on_distinct_strings ToyMol toy_parse heavy symbols
           unit unit unit unit
           (fun _ => Ok tt) (fun _ _ _ => Ok tt) (fun _ _ => Ok tt)
           (fun _ : string => Raise (ValueError "no file"))
           ["CC"; "C"; "C[Na]"] [1; 5; 3]%R tt None None None false None).
  - repeat (constructor; [cbn [In]; intuition discriminate|]). constructor.
  - reflexivity.
  - reflexivity.
  - reflexivity.
  - reflexivity.
Defined.

Lemma DataSet_len_getitem_witness :
  exists (fs : list string) (st : list R),
    ds_smiles toy_dataset = Some fs /\ ds_target toy_dataset = Some st
    /\ DataSet_len toy_dataset = List.length fs
    /\ (forall i, (i < List.length fs)%nat ->
          exists d,
            DataSet_getitem toy_dataset (Z.of_nat i) = Ok d
            /\ DataSet_getitem toy_dataset
                 (Z.of_nat i - Z.of_nat (DataSet_len toy_dataset)) = Ok d
            /\ nth_error st i = Some (y d))
    /\ (forall z, (z < - Z.of_nat (DataSet_len toy_dataset)
                   \/ Z.of_nat (DataSet_len toy_dataset) <= z)%Z ->
          DataSet_getitem toy_dataset z = Raise IndexError).
Proof.
  apply (@DataSet_len_getitem ToyMol toy_parse heavy symbols
           unit unit unit unit
           (fun _ => Ok tt) (fun _ _ _ => Ok tt) (fun _ _ => Ok tt)
           (fun _ : string => Raise (ValueError "no file"))
           toy_smiles toy_targets tt None None None false None toy_dataset).
  exact toy_DataSet_init_ok.
Defined.

(** ** split_data, MakeGraphDataSet and get_splits *)

Section SplitMore.

Variable Mol : Type.
Variable MolFromSmiles : string -> option Mol.
Variable GetNumHeavyAtoms : Mol -> nat.
Variable GetSymbols : Mol -> list string.
Variables NodeFeat EdgeIndex EdgeFeat GlobalFeat : Type.
Variable adjacency_edges : Mol -> result EdgeIndex.
Variable AtomFeaturizer : option (list string) -> list string -> Mol -> result NodeFeat.
Variable BondFeaturizer : list string -> Mol -> result EdgeFeat.
Variable pickle_load : string -> result (list (Data NodeFeat EdgeIndex EdgeFeat)).
Variable Subset : Type.
Variable ConsecutiveSplitter : Splitter NodeFeat EdgeIndex EdgeFeat Subset.
Variable RandomSplitter : Splitter NodeFeat EdgeIndex EdgeFeat Subset.
Variable MolecularWeightSplitter : Splitter NodeFeat EdgeIndex EdgeFeat Subset.
Variable ScaffoldSplitter : Splitter NodeFeat EdgeIndex EdgeFeat Subset.
Variable SingleTaskStratifiedSplitter : Splitter NodeFeat EdgeIndex EdgeFeat Subset.

Let split :=
  split_data ConsecutiveSplitter RandomSplitter MolecularWeightSplitter
             ScaffoldSplitter SingleTaskStratifiedSplitter.
Let splits_of :=
  get_splits ConsecutiveSplitter RandomSplitter MolecularWeightSplitter
             ScaffoldSplitter SingleTaskStratifiedSplitter
             (GlobalFeat := GlobalFeat).
Let dataset_init :=
  DataSet_init MolFromSmiles GetNumHeavyAtoms GetSymbols adjacency_edges
               AtomFeaturizer BondFeaturizer pickle_load (GlobalFeat := GlobalFeat).
Let make_init :=
  MakeGraphDataSet_init MolFromSmiles GetNumHeavyAtoms GetSymbols adjacency_edges
               AtomFeaturizer BondFeaturizer pickle_load
               ConsecutiveSplitter RandomSplitter MolecularWeightSplitter
               ScaffoldSplitter SingleTaskStratifiedSplitter
               (GlobalFeat := GlobalFeat).

Lemma dict_get_missing (V : Type) (d : list (string * V)) (k : string) :
  ~ In k (map fst d) -> dict_get d k = Raise (KeyError k).
Proof.
  induction d as [|[k' v] d IH]; intros H; [reflexivity|].
  cbn. destruct (String.eqb_spec k' k) as [->|_].
  - exfalso. apply H. now left.
  - apply IH. intros Hin. apply H. now right.
Qed.

Lemma dict_get_present (V : Type) (d : list (string * V)) (k : string) :
  In k (map fst d) -> exists v, dict_get d k = Ok v.
Proof.
  induction d as [|[k' v] d IH]; intros H; [contradiction|].
  cbn. destruct (String.eqb_spec k' k) as [->|Hne]; [now exists v|].
  apply IH. destruct H as [H|H]; [contradiction|exact H].
Qed.

(** X11: with the custom strategy and [split = True] no [MakeGraphDataSet]
    is ever constructed, whatever the arguments; and [get_splits] on an
    object that holds the custom strategy never returns. *)
Theorem MakeGraphDataSet_custom_never_constructed
        (path : option string) (smiles : option (list string))
        (target : option (list R)) (global_features : GlobalFeat)
        (allowed_atoms atom_feature_list bond_feature_list : option (list string))
        (split_frac : option (list Q)) (labels : option (list Z))
        (log : bool) :
  is_ok (make_init path smiles target global_features allowed_atoms
                   atom_feature_list bond_feature_list true (Some "custom")
                   split_frac labels log) = false
  /\ forall self frac tr te va,
      is_ok (splits_of (mkMakeGraphDataSet self labels "custom" frac
                                           tr te va)) = false.
Proof.
  split.
  - unfold make_init, MakeGraphDataSet_init.
    destruct (DataSet_init _ _ _ _ _ _ _ _ _ _ _ _ _ _ _ _) as [self|];
      [|reflexivity].
    cbn [bind or_default]. destruct (truthy _); [|reflexivity].
    unfold split_data. cbn [String.eqb Ascii.eqb Bool.eqb andb].
    destruct labels; reflexivity.
  - intros self frac tr te va. unfold splits_of, get_splits, split_data.
    cbn [split_type custom_split String.eqb Ascii.eqb Bool.eqb andb].
    destruct labels; reflexivity.
Qed.

(** X12: [split_data] on a strategy name it does not know stops with
    [KeyError] on that name; on a name it knows, with fewer than three
    fractions, it stops with [IndexError] and the splitter is not run. *)
Theorem split_data_bad_arguments
        (data : list (Data NodeFeat EdgeIndex EdgeFeat)) (split_type : string)
        (split_frac : list Q) (custom_split : option (list Z)) :
  split_type <> "custom" ->
  (~ In split_type known_strategies ->
   split data split_type split_frac custom_split = Raise (KeyError split_type))
  /\ (In split_type known_strategies ->
      (List.length split_frac < 3)%nat ->
      split data split_type split_frac custom_split = Raise IndexError).
Proof.
  intros Hc. apply String.eqb_neq in Hc.
  unfold split, split_data. rewrite Hc. split.
  - intros Hk. rewrite dict_get_missing; [reflexivity|exact Hk].
  - intros Hk Hlen.
    destruct (@dict_get_present _
                (split_func ConsecutiveSplitter RandomSplitter
                            MolecularWeightSplitter ScaffoldSplitter
                            SingleTaskStratifiedSplitter)
                split_type Hk) as [splitter Hs].
    rewrite Hs. cbn [bind]. unfold getitem.
    destruct split_frac as [|f0 [|f1 [|f2 rest]]]; cbn in *;
      try reflexivity; lia.
Qed.

End SplitMore.

Lemma split_data_bad_arguments_witness :
  (split_data toy_splitter toy_splitter toy_splitter toy_splitter toy_splitter
              [] "kfold" [8 # 10; 1 # 10; 1 # 10]%Q None
   = Raise (KeyError "kfold"))
  /\ (split_data toy_splitter toy_splitter toy_splitter toy_splitter toy_splitter
                 [] "random" [8 # 10; 2 # 10]%Q None
      = Raise IndexError).
Proof.
  split.
  - apply (@split_data_bad_arguments unit unit unit (list ToyData)
             toy_splitter toy_splitter toy_splitter toy_splitter toy_splitter
             [] "kfold" [8 # 10; 1 # 10; 1 # 10]%Q None).
    + discriminate.
    + cbn [In known_strategies]. intuition discriminate.
  - apply (@split_data_bad_arguments unit unit unit (list ToyData)
             toy_splitter toy_splitter toy_splitter toy_splitter toy_splitter
             [] "random" [8 # 10; 2 # 10]%Q None).
    + discriminate.
    + cbn [In known_strategies]. auto.
    + cbn. lia.
Defined.

(** ** train_model: when it stops and what it has then *)

Lemma firstn_seq_min (k s n : nat) : firstn k (seq s n) = seq s (Nat.min k n).
Proof.
  revert s n. induction k as [|k IH]; intros s [|n]; try reflexivity.
  cbn. now rewrite IH.
Qed.

Section TrainModelMore.

Variables Model Batch Loss : Type.
Variable train_batch : Model -> Batch -> Model * Loss.
Variable val_batch : Model -> Batch -> Model * Loss.
Variable train_data_loader : nat -> list Batch.
Variable val_data_loader : nat -> list Batch.
Variable loss_mean : list Loss -> Loss.
Variable ltb : Loss -> Loss -> bool.
Variable inf : Loss.

Let after :=
  state_after train_batch val_batch train_data_loader val_data_loader
              loss_mean ltb inf.
Let train :=
  train_model train_batch val_batch train_data_loader val_data_loader
              loss_mean ltb inf.
Let train_state :=
  train_model_state train_batch val_batch train_data_loader val_data_loader
                    loss_mean ltb inf.
Let train_mean :=
  epoch_train_mean train_batch val_batch train_data_loader val_data_loader
                   loss_mean ltb inf.
Let val_mean :=
  epoch_val_mean train_batch val_batch train_data_loader val_data_loader
                 loss_mean ltb inf.
Let better :=
  improved train_batch val_batch train_data_loader val_data_loader
           loss_mean ltb inf.

(** The run, as the helper lemmas of the loop give it. *)
Lemma train_run (m : Model) (epochs : Z) (early_stopping : bool) (patience : Z) :
  exists k,
    (k <= Z.to_nat epochs)%nat
    /\ train_state m epochs early_stopping patience = after m k
    /\ train m epochs early_stopping patience
       = (map (train_mean m) (seq 0 k), map (val_mean m) (seq 0 k))
    /\ (forall i, (0 < i < k)%nat ->
          hit_early_stop early_stopping patience (after m i) = false)
    /\ ((k < Z.to_nat epochs)%nat ->
          (0 < k)%nat /\ early_stopping = true
          /\ Z.of_nat (counter (after m k)) = patience).
Proof.
  destruct (@epochs_loop_spec Model Batch Loss train_batch val_batch
              train_data_loader val_data_loader loss_mean ltb inf
              m early_stopping patience (Z.to_nat epochs) 0)
    as (k & Hle & Hrun & Hbefore & Hstop).
  cbn [Nat.add] in *. exists k.
  assert (Hstate : train_state m epochs early_stopping patience = after m k)
    by exact Hrun.
  destruct (@losses_after Model Batch Loss train_batch val_batch
              train_data_loader val_data_loader loss_mean ltb inf m k)
    as [Ht Hv].
  split; [exact Hle|]. split; [exact Hstate|]. split.
  - unfold train, train_model. fold train_state. rewrite Hstate.
    fold after in Ht, Hv. now rewrite Ht, Hv.
  - split; [exact Hbefore|]. intros Hlt. destruct (Hstop Hlt) as [Hpos Hhit].
    unfold hit_early_stop in Hhit. apply andb_true_iff in Hhit as [H1 H2].
    apply Z.eqb_eq in H1. fold after in H1. tauto.
Qed.

Lemma fields_after (m : Model) (j : nat) :
  loss_cut (after m (S j))
  = (if better m j then val_mean m j else loss_cut (after m j))
  /\ counter (after m (S j))
     = (if better m j then 0%nat else S (counter (after m j))).
Proof.
  destruct (@epoch_body_fields Model Batch Loss train_batch val_batch
              train_data_loader val_data_loader loss_mean ltb inf m j)
    as (_ & _ & Hcut & Hc).
  split; [exact Hcut|exact Hc].
Qed.

(** Epochs that do not improve leave [loss_cut] alone. *)
Lemma loss_cut_stall (m : Model) (a b : nat) :
  (a <= b)%nat ->
  (forall i, (a <= i < b)%nat -> better m i = false) ->
  loss_cut (after m b) = loss_cut (after m a).
Proof.
  induction b as [|b IH]; intros Hab Hall.
  - now replace a with 0%nat by lia.
  - destruct (Nat.eq_dec a (S b)) as [->|Hne]; [reflexivity|].
    destruct (fields_after m b) as [Hcut _]. rewrite Hcut.
    rewrite (Hall b) by lia. apply IH; [lia|]. intros i Hi. apply Hall. lia.
Qed.

(** X13: early stopping only cuts the run short: the two lists returned
    with it are initial segments of the two lists returned without it. *)
Theorem train_model_early_stop_prefix (m : Model) (epochs : Z)
        (early_stopping : bool) (patience : Z) :
  exists k,
    (k <= Z.to_nat epochs)%nat
    /\ train m epochs early_stopping patience
       = (firstn k (fst (train m epochs false patience)),
          firstn k (snd (train m epochs false patience))).
Proof.
  destruct (train_run m epochs early_stopping patience)
    as (k & Hle & _ & Hret & _).
  exists k. split; [exact Hle|]. rewrite Hret. unfold train.
  rewrite (@train_model_all_epochs Model Batch Loss train_batch val_batch
             train_data_loader val_data_loader loss_mean ltb inf m epochs
             patience).
  cbn [fst snd]. rewrite !firstn_map, !firstn_seq_min.
  now replace (Nat.min k (Z.to_nat epochs)) with k by lia.
Qed.

(** X14: a patience of 0 stops the training at the first epoch that
    improves: when the first validation loss is below infinity, exactly one
    epoch is run. *)
Theorem train_model_patience_zero (m : Model) (epochs : Z) :
  (1 <= epochs)%Z ->
  ltb (val_mean m 0) inf = true ->
  train m epochs true 0 = ([train_mean m 0], [val_mean m 0]).
Proof.
  intros He Hfirst.
  destruct (train_run m epochs true 0) as (k & Hle & _ & Hret & Hbefore & Hstop).
  assert (Hc1 : counter (after m 1) = 0%nat).
  { destruct (fields_after m 0) as [_ Hc]. rewrite Hc.
    unfold better, improved. fold val_mean.
    change (loss_cut (state_after _ _ _ _ _ _ _ m 0)) with inf.
    now rewrite Hfirst. }
  assert (Hk : k = 1%nat).
  { destruct (Nat.lt_trichotomy k 1) as [Hlt|[Heq|Hgt]]; [|exact Heq|].
    - destruct Hstop as [Hpos _]; lia.
    - specialize (Hbefore 1%nat ltac:(lia)).
      unfold hit_early_stop in Hbefore. rewrite Hc1 in Hbefore. discriminate. }
  subst k. exact Hret.
Qed.

(** X15: a patience that is negative, or not below the number of epochs,
    is never reached: early stopping then changes nothing. *)
Theorem train_model_patience_out_of_reach (m : Model) (epochs : Z)
        (early_stopping : bool) (patience : Z) :
  (patience < 0 \/ epochs <= patience)%Z ->
  train m epochs early_stopping patience = train m epochs false patience.
Proof.
  intros Hp.
  destruct (train_run m epochs early_stopping patience)
    as (k & Hle & _ & Hret & _ & Hstop).
  assert (Hk : k = Z.to_nat epochs).
  { destruct (Nat.eq_dec k (Z.to_nat epochs)) as [|Hne]; [assumption|].
    destruct Hstop as (_ & _ & Hc); [lia|].
    destruct (@counter_after Model Batch Loss train_batch val_batch
                train_data_loader val_data_loader loss_mean ltb inf m k)
      as (Hck & _).
    fold after in Hck. lia. }
  rewrite Hret, Hk. unfold train.
  now rewrite (@train_model_all_epochs Model Batch Loss train_batch val_batch
                 train_data_loader val_data_loader loss_mean ltb inf m epochs
                 patience).
Qed.

(** X16: when the training stops before [epochs], early stopping was on
    and the last [patience] validation losses are not below the best one,
    which is the validation loss just before them. *)
Theorem train_model_stops_after_stall (m : Model) (epochs : Z)
        (early_stopping : bool) (patience : Z) :
  let st := train_state m epochs early_stopping patience in
  let k := List.length (val_loss st) in
  (k < Z.to_nat epochs)%nat ->
  early_stopping = true
  /\ (0 <= patience <= Z.of_nat k)%Z
  /\ (forall i v, (k - Z.to_nat patience <= i)%nat ->
                  nth_error (val_loss st) i = Some v ->
                  ltb v (loss_cut st) = false)
  /\ ((Z.to_nat patience < k)%nat ->
      nth_error (val_loss st) (k - Z.to_nat patience - 1) = Some (loss_cut st)).
Proof.
  cbv zeta.
  destruct (train_run m epochs early_stopping patience)
    as (k & Hle & Hstate & _ & _ & Hstop).
  rewrite Hstate.
  destruct (@losses_after Model Batch Loss train_batch val_batch
              train_data_loader val_data_loader loss_mean ltb inf m k)
    as [_ Hv].
  fold after val_mean in Hv. rewrite Hv, length_map, length_seq.
  intros Hlt. destruct (Hstop Hlt) as (Hpos & Hes & Hc).
  destruct (@counter_after Model Batch Loss train_batch val_batch
              train_data_loader val_data_loader loss_mean ltb inf m k)
    as (Hck & Hrun & Hlast).
  fold after better in Hck, Hrun, Hlast.
  set (p := counter (after m k)) in *.
  assert (Hp : Z.to_nat patience = p) by lia.
  rewrite Hp.
  split; [exact Hes|]. split; [lia|]. split.
  - intros i v Hi Hnth.
    assert (Hik : (i < List.length (map (val_mean m) (seq 0 k)))%nat)
      by (apply nth_error_Some; now rewrite Hnth).
    rewrite length_map, length_seq in Hik.
    rewrite nth_error_map, nth_error_seq in Hnth.
    destruct (Nat.ltb_spec i k); [|lia].
    cbn [option_map Nat.add] in Hnth. injection Hnth as <-.
    rewrite (@loss_cut_stall m i k); [|lia|intros; apply Hrun; lia].
    apply (Hrun i). lia.
  - intros Hpk.
    assert (Hbest : loss_cut (after m k) = val_mean m (k - p - 1)).
    { rewrite (@loss_cut_stall m (S (k - p - 1)) k);
        [|lia|intros; apply Hrun; lia].
      destruct (fields_after m (k - p - 1)) as [Hcut _]. rewrite Hcut.
      now rewrite (Hlast Hpk). }
    rewrite Hbest, nth_error_map, nth_error_seq.
    destruct (Nat.ltb_spec (k - p - 1) k); [|lia]. reflexivity.
Qed.

(** X17: while every epoch improves on the best validation loss, a
    patience other than 0 never stops the training. *)
Theorem train_model_improving_never_stops (m : Model) (epochs : Z)
        (early_stopping : bool) (patience : Z) :
  patience <> 0%Z ->
  (forall j, (j < Z.to_nat epochs)%nat -> better m j = true) ->
  train m epochs early_stopping patience = train m epochs false patience.
Proof.
  intros Hp Hall.
  destruct (train_run m epochs early_stopping patience)
    as (k & Hle & _ & Hret & _ & Hstop).
  assert (Hk : k = Z.to_nat epochs).
  { destruct (Nat.eq_dec k (Z.to_nat epochs)) as [|Hne]; [assumption|].
    destruct Hstop as (Hpos & _ & Hc); [lia|].
    destruct k as [|k]; [lia|].
    destruct (fields_after m k) as [_ Hck]. rewrite Hck in Hc.
    rewrite (Hall k) in Hc by lia. cbn in Hc. congruence. }
  rewrite Hret, Hk. unfold train.
  now rewrite (@train_model_all_epochs Model Batch Loss train_batch val_batch
                 train_data_loader val_data_loader loss_mean ltb inf m epochs
                 patience).
Qed.

(** X18: no epoch is run exactly when [epochs] is 0 or less; from
    [epochs = 1] on, the lists returned are never empty. *)
Theorem train_model_runs_an_epoch_iff (m : Model) (epochs : Z)
        (early_stopping : bool) (patience : Z) :
  (fst (train m epochs early_stopping patience) = [] <-> (epochs <= 0)%Z)
  /\ (snd (train m epochs early_stopping patience) = [] <-> (epochs <= 0)%Z).
Proof.
  destruct (train_run m epochs early_stopping patience)
    as (k & Hle & _ & Hret & _ & Hstop).
  rewrite Hret. cbn [fst snd].
  assert (Hk : k = 0%nat <-> (epochs <= 0)%Z).
  { split; intros H.
    - destruct (Z.leb_spec epochs 0); [assumption|].
      destruct Hstop as [Hpos _]; lia.
    - lia. }
  split; (split; intros H; [apply Hk|apply Hk in H; now subst k]).
  all: destruct k; [reflexivity|]; rewrite seq_S, map_app in H.
  all: now destruct (map _ (seq 0 k)).
Qed.

End TrainModelMore.

Lemma train_model_patience_zero_witness :
  toy_train [5; 4; 4; 4; 3]%Z 10 true 0 = ([Fin 5], [Fin 5]).
Proof.
  apply (@train_model_patience_zero nat Z ToyLoss toy_train_batch toy_val_batch
           (toy_loader [5; 4; 4; 4; 3]%Z) (toy_loader [5; 4; 4; 4; 3]%Z)
           toy_mean toy_ltb PInf 0%nat 10%Z).
  - lia.
  - reflexivity.
Defined.

Lemma train_model_patience_out_of_reach_witness :
  toy_train [5; 4; 4; 4; 3]%Z 5 true (-1)
  = toy_train [5; 4; 4; 4; 3]%Z 5 false (-1).
Proof.
  apply (@train_model_patience_out_of_reach nat Z ToyLoss toy_train_batch
           toy_val_batch
           (toy_loader [5; 4; 4; 4; 3]%Z) (toy_loader [5; 4; 4; 4; 3]%Z)
           toy_mean toy_ltb PInf 0%nat 5%Z true (-1)%Z).
  left. lia.
Defined.

Lemma train_model_stops_after_stall_witness :
  let st :=
    train_model_state toy_train_batch toy_val_batch
      (toy_loader [5; 4; 4; 4; 3]%Z) (toy_loader [5; 4; 4; 4; 3]%Z)
      toy_mean toy_ltb PInf 0%nat 10%Z true 2%Z in
  val_loss st = [Fin 5; Fin 4; Fin 4; Fin 4]
  /\ (forall i v, (2 <= i)%nat -> nth_error (val_loss st) i = Some v ->
                  toy_ltb v (loss_cut st) = false)
  /\ nth_error (val_loss st) 1 = Some (loss_cut st).
Proof.
  cbv zeta. split; [reflexivity|].
  destruct (@train_model_stops_after_stall nat Z ToyLoss toy_train_batch
              toy_val_batch
              (toy_loader [5; 4; 4; 4; 3]%Z) (toy_loader [5; 4; 4; 4; 3]%Z)
              toy_mean toy_ltb PInf 0%nat 10%Z true 2%Z)
    as (_ & _ & Hlast & Hbest).
  - vm_compute. lia.
  - split; [exact Hlast|]. apply Hbest. vm_compute. lia.
Defined.

Lemma train_model_improving_never_stops_witness :
  toy_train [5; 4; 3]%Z 3 true 1 = toy_train [5; 4; 3]%Z 3 false 1.
Proof.
  apply (@train_model_improving_never_stops nat Z ToyLoss toy_train_batch
           toy_val_batch (toy_loader [5; 4; 3]%Z) (toy_loader [5; 4; 3]%Z)
           toy_mean toy_ltb PInf 0%nat 3%Z true 1%Z).
  - discriminate.
  - intros j Hj. destruct j as [|[|[|j]]]; try reflexivity. cbn in Hj. lia.
Defined.

(** ** test_model *)

Section TestModelFacts.

Variables Batch Row Latent Loss : Type.
Variable model_eval : Batch -> list Row * list Latent.
Variable loss_mean : list Loss -> Loss.

Lemma test_loop_bound (loss_func : option (Batch -> list Row -> Loss))
      (loader : list Batch) (n : nat) (t : list Loss) (p : list Row)
      (l : list Latent) :
  test_loop model_eval loss_func (enumerate_from (S n) loader)
            (mkTestState t (Some p) (Some l))
  = Ok (mkTestState (t ++ batch_losses model_eval loss_func loader)
          (Some (p ++ List.concat (map (fun b => fst (model_eval b)) loader)))
          (Some (l ++ List.concat (map (fun b => snd (model_eval b)) loader)))).
Proof.
  revert n t p l. induction loader as [|b loader IH]; intros n t p l.
  - cbn. destruct loss_func; cbn; now rewrite !app_nil_r.
  - cbn [enumerate_from test_loop]. unfold test_step.
    destruct (model_eval b) as [out lat] eqn:Hb.
    cbn [Nat.eqb preds latents read_local bind temp].
    rewrite IH. cbn [map List.concat]. rewrite Hb. cbn [fst snd].
    destruct loss_func; cbn [batch_losses map];
      rewrite ?Hb, <- ?app_assoc; reflexivity.
Qed.

(** X19: on a loader with a batch or more, [test_model] returns the
    predictions of all the batches, one after the other in loader order,
    the latents likewise, and with a loss function the mean of the
    per-batch losses; on a loader without batches it stops at the unbound
    [preds]. *)
Theorem test_model_concatenates
        (loss_func : option (Batch -> list Row -> Loss)) (loader : list Batch) :
  (loader = [] ->
   test_model model_eval loss_mean loss_func loader = Raise (NameError "preds"))
  /\ (loader <> [] ->
      test_model model_eval loss_mean loss_func loader
      = Ok (List.concat (map (fun b => fst (model_eval b)) loader),
            List.concat (map (fun b => snd (model_eval b)) loader),
            match loss_func with
            | Some f =>
                Some (loss_mean (map (fun b => f b (fst (model_eval b))) loader))
            | None => None
            end)).
Proof.
  split.
  - intros ->. unfold test_model. cbn. destruct loss_func; reflexivity.
  - intros Hne. destruct loader as [|b loader]; [contradiction|].
    unfold test_model. cbn [enumerate_from test_loop]. unfold test_step.
    destruct (model_eval b) as [out lat] eqn:Hb.
    cbn [Nat.eqb bind]. rewrite test_loop_bound. cbn [bind map List.concat].
    rewrite Hb. cbn [fst snd preds latents read_local bind temp].
    destruct loss_func; cbn [batch_losses temp app]; rewrite ?Hb; reflexivity.
Qed.

End TestModelFacts.

(** Batches of integers, predicted by doubling, with the batch itself as
    latents and its length as loss. *)
Lemma test_model_concatenates_witness :
  test_model (fun b : list Z => (map (Z.mul 2) b, b))
             (fun l : list nat => fold_left Nat.add l 0%nat)
             (Some (fun (b out : list Z) => List.length out))
             [[1; 2]; [3]]%Z
  = Ok ([2; 4; 6]%Z, [1; 2; 3]%Z, Some 3%nat).
Proof.
  apply (@test_model_concatenates (list Z) Z Z nat
           (fun b : list Z => (map (Z.mul 2) b, b))
           (fun l : list nat => fold_left Nat.add l 0%nat)
           (Some (fun (b out : list Z) => List.length out))
           [[1; 2]; [3]]%Z).
  discriminate.
Defined.

(** ** pred_metric: the dictionary it returns *)




Section PredMetricMore.

Variable mean_squared_error : list Q -> list Q -> Q.
Variable mean_absolute_error : list Q -> list Q -> Q.
Variable r2_score : list Q -> list Q -> Q.

Let metric := pred_metric mean_squared_error mean_absolute_error r2_score.






Local Open Scope Q_scope.

Lemma Qsq_nonneg (x : Q) : 0 <= x * x.
Proof.
  destruct (Qlt_le_dec x 0).
  - setoid_replace (x * x) with ((- x) * (- x)) by ring.
    apply Qmult_le_0_compat; Lqa.lra.
  - apply Qmult_le_0_compat; Lqa.lra.
Qed.

Lemma Qsq_zero (x : Q) : x * x == 0 -> x == 0.
Proof.
  intros H. destruct (Qeq_dec x 0) as [|Hn]; [assumption|].
  apply Qmult_integral in H. tauto.
Qed.

Lemma sse_terms (prediction target : list Q) :
  List.length prediction = List.length target ->
  0 <= np_sumQ (arr_sq (arr_sub target prediction))
  /\ (np_sumQ (arr_sq (arr_sub target prediction)) == 0
      <-> Forall2 Qeq prediction target).
Proof.
  revert target.
  induction prediction as [|f prediction IH]; intros [|t target] Hlen;
    try discriminate.
  - cbn. split; [apply Qle_refl|]. split; [constructor|reflexivity].
  - injection Hlen as Hlen. destruct (IH target Hlen) as [Hpos Hiff].
    unfold arr_sq, arr_sub in *. cbn [combine map fst snd].
    rewrite np_sumQ_cons.
    set (S := np_sumQ _) in *.
    pose proof (Qsq_nonneg (t - f)) as Hsq.
    split; [Lqa.lra|]. split.
    + intros H.
      assert (Hz : (t - f) * (t - f) == 0) by Lqa.lra.
      assert (HS : S == 0) by Lqa.lra.
      constructor; [|now apply Hiff].
      apply Qsq_zero in Hz. Lqa.lra.
    + intros H. inversion H as [|? ? ? ? Hft Hrest]; subst.
      apply Hiff in Hrest. rewrite Hrest, Hft. ring.
Qed.

(** X21: the sum of squared errors is never negative, and on arrays of
    one length it is zero exactly when every prediction equals its
    target. *)
Theorem pred_metric_sse (prediction target : list Q) :
  List.length prediction = List.length target ->
  exists v : Q,
    metric prediction target (MetricStr "sse") = [("sse", v)]
    /\ 0 <= v
    /\ (v == 0 <-> Forall2 Qeq prediction target).
Proof.
  intros Hlen. eexists. split; [reflexivity|]. now apply sse_terms.
Qed.

Lemma mre_ratio_terms (prediction target : list Q) :
  List.length prediction = List.length target ->
  Forall (fun t => ~ t == 0) target ->
  np_sumQ (arr_div (arr_sub target prediction) target) * 100
  == 100 * (inject_Z (Z.of_nat (List.length target))
            - np_sumQ (arr_div prediction target)).
Proof.
  revert target.
  induction prediction as [|f prediction IH]; intros [|t target] Hlen Hnz;
    try discriminate.
  - cbn. ring.
  - injection Hlen as Hlen. inversion Hnz as [|? ? Ht Hrest]; subst.
    specialize (IH target Hlen Hrest).
    unfold arr_div, arr_sub in *. cbn [combine map fst snd List.length].
    rewrite !np_sumQ_cons, Nat2Z.inj_succ, <- Z.add_1_r, inject_Z_plus.
    set (S1 := np_sumQ _) in *. set (S2 := np_sumQ _) in *.
    set (n := inject_Z (Z.of_nat (List.length target))) in *.
    setoid_replace (((t - f) / t + S1) * 100)
      with ((t - f) / t * 100 + S1 * 100) by ring.
    rewrite IH. change (inject_Z 1) with 1. field. exact Ht.
Qed.

(** X22: with targets other than zero, what [pred_metric] stores for 'mre'
    is 100 * (N - sum_i f(x_i) / y_i): signed relative errors, which cancel
    one another; it is zero when every prediction equals its target. *)
Theorem pred_metric_mre_signed (prediction target : list Q) :
  List.length prediction = List.length target ->
  Forall (fun t => ~ t == 0) target ->
  exists v : Q,
    metric prediction target (MetricStr "mre") = [("mre", v)]
    /\ v == 100 * (inject_Z (Z.of_nat (List.length target))
                   - np_sumQ (arr_div prediction target))
    /\ (Forall2 Qeq prediction target -> v == 0).
Proof.
  intros Hlen Hnz. eexists. split; [reflexivity|]. split.
  - now apply mre_ratio_terms.
  - intros Heq. clear Hlen. induction Heq as [|f t p' t' Hft _ IH].
    + reflexivity.
    + inversion Hnz as [|? ? Ht Hrest]; subst.
      unfold arr_div, arr_sub in *. cbn [combine map fst snd].
      rewrite np_sumQ_cons.
      setoid_replace (((t - f) / t + np_sumQ
         (map (fun p : Q * Q => fst p / snd p)
            (combine (map (fun p : Q * Q => fst p - snd p) (combine t' p')) t')))
         * 100)
        with ((t - f) / t * 100 + np_sumQ
         (map (fun p : Q * Q => fst p / snd p)
            (combine (map (fun p : Q * Q => fst p - snd p) (combine t' p')) t'))
         * 100) by ring.
      rewrite (IH Hrest), Hft. field. exact Ht.
Qed.

End PredMetricMore.

Lemma pred_metric_sse_witness :
  exists v : Q,
    pred_metric (fun _ _ => 0) (fun _ _ => 0) (fun _ _ => 0)
                [1; 2] [1; 4] (MetricStr "sse") = [("sse", v)]
    /\ (0 <= v)%Q
    /\ (v == 0 <-> Forall2 Qeq [1; 2] [1; 4])%Q.
Proof.
  apply (@pred_metric_sse (fun _ _ => 0%Q) (fun _ _ => 0%Q) (fun _ _ => 0%Q)
           [1; 2]%Q [1; 4]%Q).
  reflexivity.
Defined.

Lemma pred_metric_mre_signed_witness :
  exists v : Q,
    pred_metric (fun _ _ => 0) (fun _ _ => 0) (fun _ _ => 0)
                [0; 2] [1; 1] (MetricStr "mre") = [("mre", v)]
    /\ (v == 100 * (2 - np_sumQ (arr_div [0; 2] [1; 1])))%Q
    /\ (Forall2 Qeq [0; 2] [1; 1] -> v == 0)%Q.
Proof.
  apply (@pred_metric_mre_signed (fun _ _ => 0%Q) (fun _ _ => 0%Q)
           (fun _ _ => 0%Q) [0; 2]%Q [1; 1]%Q).
  - reflexivity.
  - repeat constructor; discriminate.
Defined.

(** ** GroupGAT_Ensemble and old_GroupGAT_Ensemble *)

Lemma dict_lookup_absent (V : Type) (d : list (string * V)) (k : string) :
  ~ In k (map fst d) -> dict_lookup d k = None.
Proof.
  induction d as [|[k' v] d IH]; intros H; [reflexivity|].
  cbn. destruct (String.eqb_spec k' k) as [->|_].
  - exfalso. apply H. now left.
  - apply IH. intros Hin. apply H. now right.
Qed.

Lemma dict_lookup_present (V : Type) (d : list (string * V)) (k : string) :
  In k (map fst d) -> exists v, dict_lookup d k = Some v.
Proof.
  induction d as [|[k' v] d IH]; intros H; [contradiction|].
  cbn. destruct (String.eqb_spec k' k) as [->|Hne]; [now exists v|].
  apply IH. destruct H as [H|H]; [contradiction|exact H].
Qed.

Lemma dict_get_lookup (V : Type) (d : list (string * V)) (k : string) :
  dict_get d k = match dict_lookup d k with
                 | Some v => Ok v
                 | None => Raise (KeyError k)
                 end.
Proof.
  induction d as [|[k' v] d IH]; [reflexivity|].
  cbn. now destruct (String.eqb k' k).
Qed.

Section EnsembleMore.

Variable Graph : Type.
Variable global_feats : Graph -> R.

(** What [forward] finds under a name after running the sub-models. *)
Lemma outputs_lookup (models : list (string * (Graph -> R))) (data : Graph)
      (acc : list (string * R)) (k : string) :
  NoDup (map fst models) ->
  dict_lookup
    (fold_left (fun outputs nm => dict_set outputs (fst nm) (snd nm data))
               models acc) k
  = match dict_lookup models k with
    | Some f => Some (f data)
    | None => dict_lookup acc k
    end.
Proof.
  revert acc. induction models as [|[k0 f0] models IH]; intros acc Hnd;
    [reflexivity|].
  cbn [map fst] in Hnd. inversion Hnd as [|? ? Hnotin Hnd']. subst.
  cbn [fold_left fst snd dict_lookup]. rewrite (IH _ Hnd'), dict_lookup_set.
  destruct (String.eqb_spec k0 k) as [->|Hne]; [|reflexivity].
  now rewrite (dict_lookup_absent _ _ Hnotin).
Qed.

(** X23: the two ensemble classes compute the same thing: on one
    [ModuleDict] their [forward]s return the same value, or stop at the
    same missing name. *)
Theorem ensemble_forward_old_new
        (models : list (string * (Graph -> R))) (data : Graph) :
  NoDup (map fst models) ->
  old_GroupGAT_Ensemble.forward global_feats models data
  = GroupGAT_Ensemble.forward global_feats models data.
Proof.
  intros Hnd.
  unfold old_GroupGAT_Ensemble.forward, GroupGAT_Ensemble.forward,
    GroupGAT_Ensemble.output, GroupGAT_Ensemble.run_models.
  rewrite !dict_get_lookup, !(outputs_lookup _ data [] _ Hnd).
  cbn [dict_lookup].
  destruct (dict_lookup models "A"); [|reflexivity]. cbn [bind].
  destruct (dict_lookup models "B"); [|reflexivity]. cbn [bind].
  destruct (dict_lookup models "C"); [|reflexivity]. cbn [bind].
  destruct (dict_lookup models "D"); [|reflexivity]. cbn [bind].
  destruct (dict_lookup models "E"); reflexivity.
Qed.

(** X24: [GroupGAT_Ensemble.forward] returns exactly when the [ModuleDict]
    holds a sub-model under each of the names A, B, C, D and E. *)
Theorem ensemble_forward_needs_five
        (models : list (string * (Graph -> R))) (data : Graph) :
  NoDup (map fst models) ->
  (is_ok (GroupGAT_Ensemble.forward global_feats models data) = true
   <-> Forall (fun k => In k (map fst models)) ["A"; "B"; "C"; "D"; "E"]).
Proof.
  intros Hnd.
  unfold GroupGAT_Ensemble.forward, GroupGAT_Ensemble.output,
    GroupGAT_Ensemble.run_models.
  rewrite !(outputs_lookup _ data [] _ Hnd). cbn [dict_lookup].
  split.
  - intros H.
    repeat constructor;
      match goal with
      | |- In ?k _ =>
          destruct (in_dec string_dec k (map fst models)) as [Hin|Hout];
          [exact Hin|exfalso]
      end;
      rewrite (dict_lookup_absent _ _ Hout) in H;
      repeat (destruct (dict_lookup models _); cbn [bind] in H);
      discriminate.
  - intros H.
    pose proof (proj1 (Forall_forall _ _) H) as Hall.
    assert (HA : In "A" (map fst models)) by (apply Hall; cbn [In]; auto).
    assert (HB : In "B" (map fst models)) by (apply Hall; cbn [In]; auto).
    assert (HC : In "C" (map fst models)) by (apply Hall; cbn [In]; auto).
    assert (HD : In "D" (map fst models)) by (apply Hall; cbn [In]; auto 6).
    assert (HE : In "E" (map fst models)) by (apply Hall; cbn [In]; auto 7).
    destruct (dict_lookup_present _ _ HA) as [? ->].
    destruct (dict_lookup_present _ _ HB) as [? ->].
    destruct (dict_lookup_present _ _ HC) as [? ->].
    destruct (dict_lookup_present _ _ HD) as [? ->].
    destruct (dict_lookup_present _ _ HE) as [? ->].
    reflexivity.
Qed.

End EnsembleMore.

Lemma ensemble_forward_old_new_witness :
  old_GroupGAT_Ensemble.forward (fun T : R => T)
    (old_GroupGAT_Ensemble.models (fun _ => 1%R) (fun _ => 2%R) (fun _ => 3%R)
                                  (fun _ => 4%R) (fun _ => 5%R)) 300%R
  = GroupGAT_Ensemble.forward (fun T : R => T)
    (old_GroupGAT_Ensemble.models (fun _ => 1%R) (fun _ => 2%R) (fun _ => 3%R)
                                  (fun _ => 4%R) (fun _ => 5%R)) 300%R.
Proof.
  apply (@ensemble_forward_old_new R (fun T : R => T)).
  cbn [map fst old_GroupGAT_Ensemble.models].
  repeat (constructor; [cbn [In]; intuition discriminate|]). constructor.
Defined.

Lemma ensemble_forward_needs_five_witness :
  is_ok (GroupGAT_Ensemble.forward (fun T : R => T)
           [("A", fun _ => 1%R); ("B", fun _ => 2%R)] 300%R) = true
  <-> Forall (fun k => In k ["A"; "B"]) ["A"; "B"; "C"; "D"; "E"].
Proof.
  apply (@ensemble_forward_needs_five R (fun T : R => T)
           [("A", fun _ => 1%R); ("B", fun _ => 2%R)] 300%R).
  cbn [map fst].
  repeat (constructor; [cbn [In]; intuition discriminate|]). constructor.
Defined.

(** ** CpLayer: symmetry, dead guards, special values and range *)

Section CpMore.

Local Open Scope R_scope.

Lemma safe_cosh_clamped (x : R) :
  CpLayer.safe_cosh (CpLayer.clamp x (-20) 20) = cosh (CpLayer.clamp x (-20) 20).
Proof.
  unfold CpLayer.safe_cosh. pose proof (Rabs_clamp_20 x).
  destruct (Rle_dec _ 20); [reflexivity|contradiction].
Qed.

Lemma clamp_opp (x : R) :
  CpLayer.clamp (- x) (-20) 20 = - CpLayer.clamp x (-20) 20.
Proof.
  unfold CpLayer.clamp, Rmin, Rmax.
  destruct (Rle_dec (- x) (-20)); destruct (Rle_dec x (-20));
    repeat match goal with
           | |- context [Rle_dec ?a ?b] => destruct (Rle_dec a b)
           end; lra.
Qed.

Lemma cosh_even (x : R) : cosh (- x) = cosh x.
Proof.
  unfold cosh. rewrite Ropp_involutive. lra.
Qed.

Lemma clamp_zero : CpLayer.clamp 0 (-20) 20 = 0.
Proof.
  unfold CpLayer.clamp, Rmin, Rmax.
  destruct (Rle_dec 0 (-20)); destruct (Rle_dec _ 20); lra.
Qed.

(** sinh x >= x from 0 on: the difference starts at 0 and its derivative,
    cosh x - 1, is never negative. *)
Lemma sinh_ge_id (x : R) : 0 <= x -> x <= sinh x.
Proof.
  intros Hx.
  assert (Hd : derivable (sinh - id)%F)
    by (apply derivable_minus; [apply derivable_sinh|apply derivable_id]).
  assert (Hinc : increasing (sinh - id)%F).
  { apply (nonneg_derivative_1 _ Hd). intros t.
    rewrite (derive_pt_eq_0 _ _ (cosh t - 1)).
    - pose proof (cosh_ge_1 t). lra.
    - apply derivable_pt_lim_minus;
        [apply derivable_pt_lim_sinh|apply derivable_pt_lim_id]. }
  specialize (Hinc 0 x Hx). unfold minus_fct, id in Hinc.
  rewrite sinh_0 in Hinc. lra.
Qed.

Lemma cosh_ge_abs (x : R) : Rabs x <= cosh x.
Proof.
  assert (H : forall t, 0 <= t -> t <= cosh t).
  { intros t Ht. pose proof (sinh_ge_id Ht) as Hs.
    unfold sinh in Hs. unfold cosh. pose proof (exp_pos (- t)). lra. }
  unfold Rabs. destruct (Rcase_abs x).
  - rewrite <- cosh_even. apply H. lra.
  - apply H. lra.
Qed.

(** X25: [forward] does not see the sign of its fifth coefficient. *)
Theorem forward_even_in_F (B C D E F T : R) :
  CpLayer.forward B C D E (- F) T = CpLayer.forward B C D E F T.
Proof.
  unfold CpLayer.forward, CpLayer.cosh_term, CpLayer.F_over_T.
  replace (- F / CpLayer.T_shifted T) with (- (F / CpLayer.T_shifted T))
    by (unfold Rdiv; ring).
  rewrite clamp_opp.
  set (v := CpLayer.clamp (F / CpLayer.T_shifted T) (-20) 20).
  assert (Hc : CpLayer.safe_cosh (- v) = CpLayer.safe_cosh v).
  { unfold v. rewrite <- clamp_opp, !safe_cosh_clamped, clamp_opp.
    apply cosh_even. }
  rewrite Hc. unfold Rdiv. ring.
Qed.


(** X27: a coefficient D of zero removes the C term, and F of zero the
    E term: at D = F = 0 [forward] returns B. *)
Theorem forward_zero_D_F (B C D E F T : R) :
  CpLayer.T_shifted T <> 0 ->
  CpLayer.forward B C 0 E F T
  = B + E * (CpLayer.F_over_T F T / CpLayer.cosh_term F T) ^ 2
  /\ CpLayer.forward B C D E 0 T
     = B + C * (CpLayer.D_over_T D T / CpLayer.sinh_term D T) ^ 2
  /\ CpLayer.forward B C 0 E 0 T = B.
Proof.
  intros _.
  assert (HD : CpLayer.D_over_T 0 T = 0).
  { unfold CpLayer.D_over_T.
    replace (0 / CpLayer.T_shifted T) with 0 by (unfold Rdiv; ring).
    apply clamp_zero. }
  assert (HF : CpLayer.F_over_T 0 T = 0).
  { unfold CpLayer.F_over_T.
    replace (0 / CpLayer.T_shifted T) with 0 by (unfold Rdiv; ring).
    apply clamp_zero. }
  unfold CpLayer.forward. rewrite HD, HF. unfold Rdiv.
  repeat split; ring.
Qed.

(** X28: for a temperature T >= 0 and coefficients C, D, E >= 0 the value
    of [forward] lies between B and B + C + E. *)
Theorem forward_range (B C D E F T : R) :
  0 <= T -> 0 <= C -> 0 <= D -> 0 <= E ->
  B <= CpLayer.forward B C D E F T <= B + C + E.
Proof.
  intros HT HC HD HE. pose proof epsilon_pos as He.
  assert (HTs : 0 < CpLayer.T_shifted T) by (unfold CpLayer.T_shifted; lra).
  unfold CpLayer.forward, CpLayer.sinh_term, CpLayer.cosh_term,
    CpLayer.D_over_T, CpLayer.F_over_T.
  rewrite safe_sinh_clamped, safe_cosh_clamped.
  set (u := CpLayer.clamp (D / CpLayer.T_shifted T) (-20) 20).
  set (v := CpLayer.clamp (F / CpLayer.T_shifted T) (-20) 20).
  assert (Hu : 0 <= u).
  { apply clamp_nonneg; [|lra].
    apply Rmult_le_pos; [exact HD|]. left. now apply Rinv_0_lt_compat. }
  pose proof (sinh_ge_id Hu) as Hsu.
  pose proof (cosh_ge_abs v) as Hcv.
  assert (Hru : 0 <= u / (sinh u + CpLayer.epsilon) <= 1).
  { split.
    - apply Rmult_le_pos; [exact Hu|]. left. apply Rinv_0_lt_compat. lra.
    - apply Rmult_le_reg_r with (sinh u + CpLayer.epsilon); [lra|].
      unfold Rdiv. rewrite Rmult_assoc, Rinv_l by lra. lra. }
  assert (Hrv : -1 <= v / (cosh v + CpLayer.epsilon) <= 1).
  { assert (Hpos : 0 < cosh v + CpLayer.epsilon)
      by (pose proof (cosh_ge_1 v); lra).
    assert (Hv := Rabs_def2 v (cosh v + CpLayer.epsilon) ltac:(lra)).
    split.
    - apply Rmult_le_reg_r with (cosh v + CpLayer.epsilon); [lra|].
      unfold Rdiv. rewrite Rmult_assoc, Rinv_l by lra. lra.
    - apply Rmult_le_reg_r with (cosh v + CpLayer.epsilon); [lra|].
      unfold Rdiv. rewrite Rmult_assoc, Rinv_l by lra. lra. }
  set (ru := u / (sinh u + CpLayer.epsilon)) in *.
  set (rv := v / (cosh v + CpLayer.epsilon)) in *.
  assert (0 <= ru ^ 2 <= 1) by nra.
  assert (0 <= rv ^ 2 <= 1) by nra.
  nra.
Qed.

End CpMore.

Lemma forward_zero_D_F_witness :
  CpLayer.forward 1 2 0 3 5 300
  = (1 + 3 * (CpLayer.F_over_T 5 300 / CpLayer.cosh_term 5 300) ^ 2)%R
  /\ CpLayer.forward 1 2 4 3 0 300
     = (1 + 2 * (CpLayer.D_over_T 4 300 / CpLayer.sinh_term 4 300) ^ 2)%R
  /\ CpLayer.forward 1 2 0 3 0 300 = 1%R.
Proof.
  apply (@forward_zero_D_F 1 2 4 3 5 300)%R.
  unfold CpLayer.T_shifted, CpLayer.epsilon. lra.
Defined.

Lemma forward_range_witness :
  (1 <= CpLayer.forward 1 2 4 3 5 300 <= 1 + 2 + 3)%R.
Proof.
  apply (@forward_range 1 2 4 3 5 300)%R; lra.
Defined.

(** ** parity_plot *)

Section ParityFacts.

Local Open Scope Q_scope.

Lemma py_min_le (a b : Q) : py_min a b <= a /\ py_min a b <= b.
Proof.
  unfold py_min. destruct (Qle_bool a b) eqn:E.
  - apply Qle_bool_iff in E. split; Lqa.lra.
  - assert (~ a <= b) by (intros H; apply Qle_bool_iff in H; congruence).
    split; Lqa.lra.
Qed.

Lemma py_max_ge (a b : Q) : a <= py_max a b /\ b <= py_max a b.
Proof.
  unfold py_max. destruct (Qle_bool b a) eqn:E.
  - apply Qle_bool_iff in E. split; Lqa.lra.
  - assert (~ b <= a) by (intros H; apply Qle_bool_iff in H; congruence).
    split; Lqa.lra.
Qed.

Lemma fold_min_le (a : list Q) (v : Q) :
  fold_left py_min a v <= v /\ Forall (fun x => fold_left py_min a v <= x) a.
Proof.
  revert v. induction a as [|x a IH]; intros v; cbn [fold_left].
  - split; [Lqa.lra|constructor].
  - destruct (IH (py_min v x)) as [Hv Hall].
    destruct (py_min_le v x) as [H1 H2].
    split; [Lqa.lra|]. constructor; [Lqa.lra|exact Hall].
Qed.

Lemma fold_max_ge (a : list Q) (v : Q) :
  v <= fold_left py_max a v /\ Forall (fun x => x <= fold_left py_max a v) a.
Proof.
  revert v. induction a as [|x a IH]; intros v; cbn [fold_left].
  - split; [Lqa.lra|constructor].
  - destruct (IH (py_max v x)) as [Hv Hall].
    destruct (py_max_ge v x) as [H1 H2].
    split; [Lqa.lra|]. constructor; [Lqa.lra|exact Hall].
Qed.

Lemma np_minQ_le (a : list Q) (m : Q) :
  np_minQ a = Ok m -> Forall (fun x => m <= x) a.
Proof.
  destruct a as [|v a]; [discriminate|]. cbn. intros H. injection H as <-.
  destruct (fold_min_le a v). now constructor.
Qed.

Lemma np_maxQ_ge (a : list Q) (m : Q) :
  np_maxQ a = Ok m -> Forall (fun x => x <= m) a.
Proof.
  destruct a as [|v a]; [discriminate|]. cbn. intros H. injection H as <-.
  destruct (fold_max_ge a v). now constructor.
Qed.

(** X29: in the figure [parity_plot] draws, the two axes have the same
    limits and every point, ground truth and prediction alike, lies within
    them; a file is saved exactly when [save_fig] is set or a path is
    given. *)
Theorem parity_plot_limits (cwd : string) (active_run : bool)
        (prediction target : list Q) (mol_weights : option (list Q))
        (save_fig : bool) (path_to_export : option string)
        (rescale_data : option (list Q -> list Q)) (fig : ParityFigure) :
  parity_plot cwd active_run prediction target mol_weights save_fig
              path_to_export rescale_data = Ok fig ->
  xlim fig = ylim fig
  /\ Forall (fun v => fst (xlim fig) <= v <= snd (xlim fig))
            (scatter_x fig ++ scatter_y fig)
  /\ (saved_as fig <> None <-> save_fig = true \/ path_to_export <> None).
Proof.
  unfold parity_plot.
  destruct (negb _); [discriminate|]. cbv zeta.
  set (p := match rescale_data with Some f => f prediction | None => prediction end).
  set (t := match rescale_data with Some f => f target | None => target end).
  destruct (np_minQ p) as [pmin|] eqn:Hpmin; [|discriminate]. cbn [bind].
  destruct (np_minQ t) as [tmin|] eqn:Htmin; [|discriminate]. cbn [bind].
  destruct (np_maxQ p) as [pmax|] eqn:Hpmax; [|discriminate]. cbn [bind].
  destruct (np_maxQ t) as [tmax|] eqn:Htmax; [|discriminate]. cbn [bind].
  intros H. injection H as <-.
  cbn [xlim ylim scatter_x scatter_y saved_as fst snd].
  apply np_minQ_le in Hpmin, Htmin. apply np_maxQ_ge in Hpmax, Htmax.
  destruct (py_min_le pmin tmin) as [Hm1 Hm2].
  destruct (py_max_ge pmax tmax) as [HM1 HM2].
  split; [reflexivity|]. split.
  - apply Forall_app. split; apply Forall_forall; intros v Hv.
    + pose proof (proj1 (Forall_forall _ _) Htmin v Hv).
      pose proof (proj1 (Forall_forall _ _) Htmax v Hv).
      cbv beta in *. split; Lqa.lra.
    + pose proof (proj1 (Forall_forall _ _) Hpmin v Hv).
      pose proof (proj1 (Forall_forall _ _) Hpmax v Hv).
      cbv beta in *. split; Lqa.lra.
  - destruct path_to_export as [path|]; [|destruct save_fig].
    + split; [intros _; right|]; discriminate.
    + split; [intros _; now left|discriminate].
    + split; [intros H; now contradiction H|intros [H|H]; [discriminate|now contradiction H]].
Qed.

End ParityFacts.

Lemma parity_plot_limits_witness :
  let fig :=
    mkParityFigure [1; 4] [2; 3] None (1, 4) (1, 4)
                   (Some "/tmp/analysis_results/parity_plot.svg") None in
  xlim fig = ylim fig
  /\ Forall (fun v => fst (xlim fig) <= v <= snd (xlim fig))%Q
            (scatter_x fig ++ scatter_y fig)
  /\ (saved_as fig <> None <-> true = true \/ @None string <> None).
Proof.
  cbv zeta.
  apply (@parity_plot_limits "/tmp" false [2; 3]%Q [1; 4]%Q None true None None).
  reflexivity.
Defined.

(** ** DataSet: the standardization of the targets *)

Section StandardizeMore.

Local Open Scope R_scope.

Lemma np_sum_map_affine (l : list R) (a b : R) :
  np_sum (map (fun t => a * t + b) l) = a * np_sum l + INR (List.length l) * b.
Proof.
  induction l as [|t l IH]; [cbn; ring|].
  cbn [map]. rewrite !np_sum_cons, IH.
  change (List.length (t :: l)) with (S (List.length l)).
  rewrite S_INR. ring.
Qed.

Lemma np_mean_map_affine (l : list R) (a b t0 : R) :
  In t0 l -> np_mean (map (fun t => a * t + b) l) = a * np_mean l + b.
Proof.
  intros Hin. pose proof (@length_pos_INR _ _ _ Hin) as Hn.
  unfold np_mean. rewrite np_sum_map_affine, length_map. field. lra.
Qed.

Lemma np_std_map_affine (l : list R) (a b t0 : R) :
  In t0 l -> 0 <= a ->
  np_std (map (fun t => a * t + b) l) = a * np_std l.
Proof.
  intros Hin Ha. pose proof (@length_pos_INR _ _ _ Hin) as Hn.
  unfold np_std. rewrite (@np_mean_map_affine l a b t0 Hin).
  rewrite map_map. set (m := np_mean l).
  rewrite (map_ext _ (fun t => ((t - m) * (t - m)) * (a * a)))
    by (intros t; ring).
  assert (Hmean : np_mean (map (fun t => (t - m) * (t - m) * (a * a)) l)
                  = (a * a) * np_mean (map (fun t => (t - m) * (t - m)) l)).
  { unfold np_mean. rewrite !length_map, np_sum_scaled. field. lra. }
  rewrite Hmean, sqrt_mult_alt by nra.
  now rewrite sqrt_square.
Qed.

(** X30: the standardized targets do not depend on the unit of the
    targets: scaling them by a positive factor and shifting them leaves
    what the graphs carry unchanged. *)
Theorem standardize_affine_invariant (l : list R) (a b : R) :
  0 < a -> np_std l <> 0 ->
  standardize (map (fun t => a * t + b) l) = standardize l.
Proof.
  intros Ha Hs. destruct l as [|t0 l]; [reflexivity|].
  assert (Hin : In t0 (t0 :: l)) by now left.
  unfold standardize.
  rewrite (@np_mean_map_affine (t0 :: l) a b t0 Hin).
  rewrite (@np_std_map_affine (t0 :: l) a b t0 Hin) by lra.
  rewrite map_map. apply map_ext. intros t. field. split; lra.
Qed.

End StandardizeMore.

Lemma standardize_affine_invariant_witness :
  standardize (map (fun t => 2 * t + 5)%R [1; 3]%R) = standardize [1; 3]%R.
Proof.
  apply (@standardize_affine_invariant [1; 3]%R 2%R 5%R).
  - lra.
  - apply Rgt_not_eq. apply (@np_std_pos [1; 3]%R 1%R 3%R).
    + cbn [In]. auto.
    + cbn [In]. auto.
    + lra.
Defined.
